(** * set_github_secrets.py: encrypt-then-upload of repository secrets

    A shallow embedding of [scripts/set_github_secrets.py].

    - A Python [str] is a [string] holding the bytes of its UTF-8
      form; a lone surrogate (what [os.getenv] gives for a byte that is
      not UTF-8, or JSON for an escape such as [\ud800]) is held as the
      three bytes that the [surrogatepass] handler writes.
      [s.encode("utf-8")] returns these bytes when they are well-formed
      UTF-8 and raises [UnicodeEncodeError] otherwise;
      [b.decode("utf-8")] raises [UnicodeDecodeError] on bytes that
      are not well-formed.
    - [bytes] values are [list byte].
    - The process environment is a [gmap string string]; [os.getenv]
      is a lookup returning [option string] ([None] for an unset name).
      [load_dotenv()] is a call into a library: what it does to the
      environment, or the exception it raises, is given by the world.
    - Effects (HTTP requests, console output, random draws, exceptions)
      are threaded through a state-and-exception monad; the remote
      server is an oracle that answers each request from the history
      of events so far.  Standard output is taken to accept every
      text: [print] does not raise.
    - The libraries the script calls ([requests], [nacl], [base64],
      [dotenv]) are modelled by what the script relies on: Base64 is
      defined in full, the sealed box and the server are parameters of
      the world. *)

From Stdlib Require Import ZArith NArith List String Ascii Lia Bool.
From Stdlib.Strings Require Import Byte.
From stdpp Require Import base option gmap strings list pretty.

Import ListNotations.
Local Open Scope N_scope.

(** ** Bytes *)

Module Bytes.

(** The byte of value [n mod 256] (storing an [int] into an
    [unsigned char]). *)
Definition of_N_wrap (n : N) : byte :=
  match Byte.of_N (n mod 256) with
  | Some b => b
  | None => "000"%byte
  end.

Definition all : list byte := map of_N_wrap (map N.of_nat (seq 0 256)).

(** The bytes that hold a [str], and the [str] that bytes hold. *)
Definition to_bytes (s : string) : list byte := list_byte_of_string s.
Definition of_bytes (b : list byte) : string := string_of_list_byte b.

Definition in_range (lo hi : N) (b : byte) : bool :=
  (lo <=? Byte.to_N b) && (Byte.to_N b <=? hi).

(** A continuation byte, [80..BF]. *)
Definition continuation (b : byte) : bool := in_range 128 191 b.

(** The first two bytes of a three-byte form: [E0 A0..BF],
    [E1..EC 80..BF], [ED 80..9F] (the surrogates [ED A0..BF] are left
    out), [EE..EF 80..BF]. *)
Definition three_byte_lead (b0 b1 : byte) : bool :=
  (in_range 224 224 b0 && in_range 160 191 b1)
  || (in_range 225 236 b0 && continuation b1)
  || (in_range 237 237 b0 && in_range 128 159 b1)
  || (in_range 238 239 b0 && continuation b1).

(** The first two bytes of a four-byte form: [F0 90..BF],
    [F1..F3 80..BF], [F4 80..8F]. *)
Definition four_byte_lead (b0 b1 : byte) : bool :=
  (in_range 240 240 b0 && in_range 144 191 b1)
  || (in_range 241 243 b0 && continuation b1)
  || (in_range 244 244 b0 && in_range 128 143 b1).

(** Well-formed UTF-8: what the strict codec of Python accepts. *)
Fixpoint well_formed (l : list byte) : bool :=
  match l with
  | [] => true
  | b0 :: l1 =>
      if in_range 0 127 b0 then well_formed l1
      else
        match l1 with
        | [] => false
        | b1 :: l2 =>
            if in_range 194 223 b0 then continuation b1 && well_formed l2
            else
              match l2 with
              | [] => false
              | b2 :: l3 =>
                  if three_byte_lead b0 b1
                  then continuation b2 && well_formed l3
                  else
                    match l3 with
                    | [] => false
                    | b3 :: l4 =>
                        four_byte_lead b0 b1 && continuation b2
                        && continuation b3 && well_formed l4
                    end
              end
        end
  end.

(** A [str] that [encode("utf-8")] accepts: one without lone
    surrogates. *)
Definition encodable (s : string) : bool := well_formed (to_bytes s).

End Bytes.

(** ** Base64 (Python's [base64] module over [binascii])

  [b64encode] is the standard alphabet with [=] padding (RFC 4648
  section 4).  [b64decode] is the non-validating decoder that
  [base64.b64decode] runs by default: characters outside the alphabet
  are skipped, a complete pad sequence ends the input, and a
  dangling group is an error. *)

Module Base64.

Definition BASE64_PAD : byte := "="%byte.

Definition table_b2a_base64 : list byte :=
  list_byte_of_string
    "ABCDEFGHIJKLMNOPQRSTUVWXYZabcdefghijklmnopqrstuvwxyz0123456789+/".

Definition b2a (n : N) : byte := nth (N.to_nat n) table_b2a_base64 BASE64_PAD.

Fixpoint index_of (c : byte) (tbl : list byte) (i : N) : option N :=
  match tbl with
  | [] => None
  | x :: tbl' => if Byte.eqb c x then Some i else index_of c tbl' (N.succ i)
  end.

(** The reverse table: the 6-bit value of an alphabet character. *)
Definition a2b (c : byte) : option N := index_of c table_b2a_base64 0.

Definition val (b : byte) : N := Byte.to_N b.

Definition sextet1 (a : byte) : N := N.shiftr (val a) 2.
Definition sextet2 (a b : byte) : N :=
  N.lor (N.shiftl (N.land (val a) 3) 4) (N.shiftr (val b) 4).
Definition sextet3 (b c : byte) : N :=
  N.lor (N.shiftl (N.land (val b) 15) 2) (N.shiftr (val c) 6).
Definition sextet4 (c : byte) : N := N.land (val c) 63.

(** [base64.b64encode]: three bytes give four characters; one or two
    trailing bytes give a padded group. *)
Fixpoint b64encode (data : list byte) : list byte :=
  match data with
  | [] => []
  | [a] =>
      [b2a (sextet1 a); b2a (N.shiftl (N.land (val a) 3) 4);
       BASE64_PAD; BASE64_PAD]
  | [a; b] =>
      [b2a (sextet1 a); b2a (sextet2 a b);
       b2a (N.shiftl (N.land (val b) 15) 2); BASE64_PAD]
  | a :: b :: c :: rest =>
      b2a (sextet1 a) :: b2a (sextet2 a b) :: b2a (sextet3 b c)
        :: b2a (sextet4 c) :: b64encode rest
  end.

(** The decoder's loop.  [quad_pos] is the position inside the current
    group of four, [leftchar] the bits not yet written, [pads] the
    number of pad characters seen since the last data character. *)
Fixpoint a2b_loop (s : list byte) (quad_pos leftchar pads : N)
         (acc : list byte) : option (list byte) :=
  match s with
  | [] => if quad_pos =? 0 then Some acc else None
  | this_ch :: rest =>
      if Byte.eqb this_ch BASE64_PAD then
        if 2 <=? quad_pos then
          if 4 <=? quad_pos + (pads + 1) then Some acc
          else a2b_loop rest quad_pos leftchar (pads + 1) acc
        else a2b_loop rest quad_pos leftchar pads acc
      else
        match a2b this_ch with
        | None => a2b_loop rest quad_pos leftchar pads acc
        | Some v =>
            match quad_pos with
            | 0 => a2b_loop rest 1 v 0 acc
            | 1 =>
                a2b_loop rest 2 (N.land v 15) 0
                  (acc ++ [Bytes.of_N_wrap
                             (N.lor (N.shiftl leftchar 2) (N.shiftr v 4))])
            | 2 =>
                a2b_loop rest 3 (N.land v 3) 0
                  (acc ++ [Bytes.of_N_wrap
                             (N.lor (N.shiftl leftchar 4) (N.shiftr v 2))])
            | _ =>
                a2b_loop rest 0 0 0
                  (acc ++ [Bytes.of_N_wrap (N.lor (N.shiftl leftchar 6) v)])
            end
        end
  end.

(** [base64.b64decode]; [None] stands for [binascii.Error]. *)
Definition b64decode (s : list byte) : option (list byte) :=
  a2b_loop s 0 0 0 [].

End Base64.

(** ** Values, events and the outside world *)

(** A decoded JSON document, as [response.json()] returns it.  The
    fields of an object are the items of the Python [dict]. *)
#[local] Set Warnings "-register-all".
Inductive json : Type :=
  | JNull
  | JBool (b : bool)
  | JNum (n : Z)
  | JStr (s : string)
  | JArr (items : list json)
  | JObj (fields : list (string * json)).

Definition headers : Type := list (string * string).

(** What a run does that can be observed from outside, in order. *)
Inductive event : Type :=
  | Get (url : string) (hdrs : headers)
  | Put (url : string) (hdrs : headers) (body : json)
  | Print (line : string).

(** A [requests.Response]: [json_body] is [None] when the body does not
    parse as JSON. *)
Record response : Type := mkResponse {
  status_code : Z;
  text : string;
  json_body : option json
}.

Inductive exn : Type :=
  | KeyError (key : string)
  | TypeError
  | AttributeError
  | JSONDecodeError
  | RequestException
  | BinasciiError
  | ValueError
  | UnicodeEncodeError
  | UnicodeDecodeError
  | SystemExit (code : Z).

(** Everything the script does not control: the server answers a
    request knowing the events so far, the operating system hands out
    random bytes, libsodium seals a message for a recipient key with
    an ephemeral seed, and [python-dotenv] turns the environment of the
    process into the one the script reads (or raises). *)
Record world : Type := mkWorld {
  http_get : list event -> string -> headers -> exn + response;
  http_put : list event -> string -> headers -> json -> exn + response;
  randombytes : nat -> list byte;
  crypto_box_seal : list byte -> list byte -> list byte -> list byte;
  dotenv : gmap string string -> exn + gmap string string
}.

Record state : Type := mkState {
  trace : list event;
  draws : nat
}.

Definition initial_state : state := {| trace := []; draws := 0 |}.

(** ** The monad of the script: state and exceptions *)

Inductive result (A : Type) : Type :=
  | Ok (a : A)
  | Raise (e : exn).
Arguments Ok {A} a.
Arguments Raise {A} e.

Definition M (A : Type) : Type := state -> result A * state.

Definition ret {A} (a : A) : M A := fun st => (Ok a, st).

Definition raise {A} (e : exn) : M A := fun st => (Raise e, st).

Definition bind {A B} (c : M A) (k : A -> M B) : M B :=
  fun st =>
    match c st with
    | (Ok a, st') => k a st'
    | (Raise e, st') => (Raise e, st')
    end.

Declare Scope prog_scope.
Delimit Scope prog_scope with prog.
Notation "'let*' x ':=' c 'in' k" := (bind c (fun x => k))
  (at level 10, x name, c at level 100, k at level 200) : prog_scope.
Notation "c ';;;' k" := (bind c (fun _ => k))
  (at level 100, k at level 200, right associativity) : prog_scope.
Local Open Scope prog_scope.

Definition log (e : event) (st : state) : state :=
  {| trace := trace st ++ [e]; draws := draws st |}.

(** ** Library calls *)

Definition print (line : string) : M unit :=
  fun st => (Ok tt, log (Print line) st).

Definition sys_exit {A} (code : Z) : M A := raise (SystemExit code).

Definition requests_get (w : world) (url : string) (hdrs : headers) : M response :=
  fun st =>
    match http_get w (trace st) url hdrs with
    | inl e => (Raise e, log (Get url hdrs) st)
    | inr r => (Ok r, log (Get url hdrs) st)
    end.

Definition requests_put (w : world) (url : string) (hdrs : headers)
           (body : json) : M response :=
  fun st =>
    match http_put w (trace st) url hdrs body with
    | inl e => (Raise e, log (Put url hdrs body) st)
    | inr r => (Ok r, log (Put url hdrs body) st)
    end.

(** [response.json()] *)
Definition response_json (r : response) : M json :=
  match json_body r with
  | Some j => ret j
  | None => raise JSONDecodeError
  end.

Fixpoint assoc (key : string) (fields : list (string * json)) : option json :=
  match fields with
  | [] => None
  | (k, v) :: fields' => if String.eqb key k then Some v else assoc key fields'
  end.

(** [obj[key]] for a string [key]. *)
Definition getitem (obj : json) (key : string) : M json :=
  match obj with
  | JObj fields =>
      match assoc key fields with
      | Some v => ret v
      | None => raise (KeyError key)
      end
  | _ => raise TypeError
  end.

(** [s.encode("utf-8")] for a [str]. *)
Definition encode_utf8 (s : string) : M (list byte) :=
  if Bytes.encodable s then ret (Bytes.to_bytes s)
  else raise UnicodeEncodeError.

(** [b.decode("utf-8")] for [bytes]. *)
Definition decode_utf8 (b : list byte) : M string :=
  if Bytes.well_formed b then ret (Bytes.of_bytes b)
  else raise UnicodeDecodeError.

(** [obj.encode("utf-8")]: only a [str] has the method. *)
Definition str_encode (obj : json) : M (list byte) :=
  match obj with
  | JStr s => encode_utf8 s
  | _ => raise AttributeError
  end.

Definition crypto_box_PUBLICKEYBYTES : nat := 32.

(** [nacl.public.PublicKey(data, encoding.Base64Encoder())] *)
Definition PublicKey (data : list byte) : M (list byte) :=
  match Base64.b64decode data with
  | None => raise BinasciiError
  | Some key =>
      if Nat.eqb (List.length key) crypto_box_PUBLICKEYBYTES then ret key
      else raise ValueError
  end.

(** [nacl.public.SealedBox(key).encrypt(plaintext)]: one draw of
    randomness for the ephemeral key pair. *)
Definition SealedBox_encrypt (w : world) (key plaintext : list byte)
  : M (list byte) :=
  fun st =>
    (Ok (crypto_box_seal w plaintext key (randombytes w (draws st))),
     {| trace := trace st; draws := S (draws st) |}).

(** Python's truth value of [os.getenv(...)]: [None] and the empty
    string are false. *)
Definition truthy (value : option string) : bool :=
  match value with
  | Some (String _ _) => true
  | _ => false
  end.

(** ** The script *)

(** [encrypt_secret], lines 14-19.  [public_key] is whatever object
    [key_data["key"]] holds at run time. *)
Definition encrypt_secret (w : world) (public_key : json)
           (secret_value : string) : M string :=
  let* key_b64 := str_encode public_key in
  let* public_key_bytes := PublicKey key_b64 in
  let* plaintext := encode_utf8 secret_value in
  let* encrypted := SealedBox_encrypt w public_key_bytes plaintext in
  decode_utf8 (Base64.b64encode encrypted).

Definition auth_headers (token : string) : headers :=
  [("Authorization", "Bearer " +:+ token);
   ("Accept", "application/vnd.github.v3+json")].

Definition public_key_url (repo : string) : string :=
  "https://api.github.com/repos/" +:+ repo +:+ "/actions/secrets/public-key".

Definition secret_url (repo secret_name : string) : string :=
  "https://api.github.com/repos/" +:+ repo +:+ "/actions/secrets/"
    +:+ secret_name.

Definition set_line (secret_name : string) : string :=
  "✓ Set secret: " +:+ secret_name.

Definition failed_line (secret_name : string) (r : response) : string :=
  "✗ Failed to set " +:+ secret_name +:+ ": " +:+ pretty (status_code r)
    +:+ " " +:+ text r.

Definition skip_line (name : string) : string :=
  "⚠ Skipping " +:+ name +:+ ": not set in environment".

Definition is_success (r : response) : bool :=
  (status_code r =? 201)%Z || (status_code r =? 204)%Z.

(** [set_secret], lines 21-53. *)
Definition set_secret (w : world) (repo token secret_name secret_value : string)
  : M bool :=
  let hdrs := auth_headers token in
  let* key_response := requests_get w (public_key_url repo) hdrs in
  let* key_data := response_json key_response in
  let* public_key := getitem key_data "key" in
  let* encrypted_value := encrypt_secret w public_key secret_value in
  let* key_id := getitem key_data "key_id" in
  let* response :=
    requests_put w (secret_url repo secret_name) hdrs
      (JObj [("encrypted_value", JStr encrypted_value); ("key_id", key_id)]) in
  if is_success response then
    print (set_line secret_name) ;;; ret true
  else
    print (failed_line secret_name response) ;;; ret false.

(** The request that [set_secret] has prepared when it reaches the PUT
    (lines 23-45 alone): the key fetch, the encryption and the body. *)
Definition built_request (w : world) (repo token secret_value : string)
  : M json :=
  let hdrs := auth_headers token in
  let* key_response := requests_get w (public_key_url repo) hdrs in
  let* key_data := response_json key_response in
  let* public_key := getitem key_data "key" in
  let* encrypted_value := encrypt_secret w public_key secret_value in
  let* key_id := getitem key_data "key_id" in
  ret (JObj [("encrypted_value", JStr encrypted_value); ("key_id", key_id)]).

(** One turn of the loop of [main], lines 80-84. *)
Definition loop_body (w : world) (repo token : string)
           (item : string * option string) (success_count : nat) : M nat :=
  let '(name, value) := item in
  match value with
  | Some (String c s) =>
      let* ok := set_secret w repo token name (String c s) in
      if ok then ret (success_count + 1)%nat else ret success_count
  | _ => print (skip_line name) ;;; ret success_count
  end.

(** [for name, value in secrets.items(): ...], lines 79-84. *)
Fixpoint for_items (w : world) (repo token : string)
         (items : list (string * option string)) (success_count : nat) : M nat :=
  match items with
  | [] => ret success_count
  | item :: rest =>
      let* n := loop_body w repo token item success_count in
      for_items w repo token rest n
  end.

Definition summary_line (success_count total : nat) : string :=
  String "010" ("Set " +:+ pretty success_count +:+ "/" +:+ pretty total
                  +:+ " secrets").

(** Lines 78-86: the counter, the loop and the summary, for the items
    of the [secrets] dictionary in insertion order. *)
Definition publish_all (w : world) (repo token : string)
           (secrets : list (string * option string)) : M unit :=
  let* success_count := for_items w repo token secrets 0%nat in
  print (summary_line success_count (List.length secrets)).

Definition secret_names : list string :=
  ["ANTHROPIC_API_KEY"; "SLACK_BOT_TOKEN"; "SLACK_SIGNING_SECRET";
   "SLACK_INBOX_CHANNEL_ID"; "SLACK_WEEKLY_CHANNEL_ID";
   "SLACK_MONTHLY_CHANNEL_ID"; "SLACK_USER_ID"].

(** [load_dotenv()], line 58, is a call into [python-dotenv]: it looks
    for a [.env] file, can be switched off by the variable
    [PYTHON_DOTENV_DISABLED], and can raise.  None of this is in the
    repository: the world gives the environment after the call, or the
    exception. *)
Definition load_dotenv (w : world) (environ : gmap string string)
  : M (gmap string string) :=
  match dotenv w environ with
  | inl e => raise e
  | inr environ' => ret environ'
  end.

Definition getenv (environ : gmap string string) (name : string)
  : option string := environ !! name.

(** [main], lines 55-86. *)
Definition main (w : world) (environ : gmap string string) : M unit :=
  let* environ := load_dotenv w environ in
  let repo := getenv environ "GITHUB_REPO" in
  let token := getenv environ "GITHUB_TOKEN" in
  match repo, token with
  | Some (String c1 r), Some (String c2 t) =>
      let secrets := map (fun name => (name, getenv environ name)) secret_names in
      publish_all w (String c1 r) (String c2 t) secrets
  | _, _ =>
      print "Error: GITHUB_REPO and GITHUB_TOKEN must be set" ;;; sys_exit 1
  end.

(** ** Observations of a run *)

(** The exit status of the interpreter: 0 on return, the code of
    [sys.exit], 1 for an exception nobody caught. *)
Definition exit_status {A} (r : result A) : Z :=
  match r with
  | Ok _ => 0
  | Raise (SystemExit code) => code
  | Raise _ => 1
  end.

Definition is_network (e : event) : bool :=
  match e with
  | Get _ _ | Put _ _ _ => true
  | Print _ => false
  end.

Definition is_get (e : event) : bool :=
  match e with Get _ _ => true | _ => false end.

Definition is_put (e : event) : bool :=
  match e with Put _ _ _ => true | _ => false end.

Definition network_calls (t : list event) : list event := List.filter is_network t.

(** The printed lines, in order. *)
Fixpoint printed (t : list event) : list string :=
  match t with
  | [] => []
  | Print line :: t' => line :: printed t'
  | _ :: t' => printed t'
  end.

Definition count_gets (t : list event) : nat := List.length (List.filter is_get t).
Definition count_puts (t : list event) : nat := List.length (List.filter is_put t).

(** Standard output: [print] writes its argument and a newline. *)
Fixpoint stdout (t : list event) : string :=
  match t with
  | [] => ""
  | Print line :: t' => line +:+ String "010" (stdout t')
  | _ :: t' => stdout t'
  end.

(** The lines of a text, each ended by a newline. *)
Fixpoint lines_from (cur : string) (s : string) : list string :=
  match s with
  | EmptyString => match cur with EmptyString => [] | _ => [cur] end
  | String c s' =>
      if Ascii.eqb c "010" then cur :: lines_from "" s'
      else lines_from (cur +:+ String c "") s'
  end.

Definition lines (s : string) : list string := lines_from "" s.

(** The secrets of a dictionary that are attempted: those with a
    non-empty value. *)
Definition attempted (secrets : list (string * option string)) : nat :=
  List.length (List.filter (fun item => truthy (snd item)) secrets).

(** The submits among the events [evs] made after the history [hist]
    that the server answers with 201 or 204. *)
Fixpoint successes (w : world) (hist evs : list event) : nat :=
  match evs with
  | [] => 0
  | e :: evs' =>
      (match e with
       | Put url hdrs body =>
           match http_put w hist url hdrs body with
           | inr r => if is_success r then 1 else 0
           | inl _ => 0
           end
       | _ => 0
       end + successes w (hist ++ [e]) evs')%nat
  end.

(** The number of submits that one secret calls for. *)
Definition attempts (value : option string) : nat :=
  if truthy value then 1 else 0.

(** A call that touches neither the trace nor the random draws. *)
Definition pure_call {A} (c : M A) : Prop := forall st, snd (c st) = st.

(** The text that [encrypt_secret] returns for [value] under [key] in
    state [st]. *)
Definition sealed_text (w : world) (value : string) (key : list byte)
           (st : state) : string :=
  Bytes.of_bytes
    (Base64.b64encode
       (crypto_box_seal w (Bytes.to_bytes value) key
                        (randombytes w (draws st)))).

(** A key as [encrypt_secret] accepts it: a string without lone
    surrogates that is the Base64 text of 32 bytes. *)
Definition usable_key (public_key : json) (key : list byte) : Prop :=
  exists s, public_key = JStr s
            /\ Bytes.encodable s = true
            /\ Base64.b64decode (Bytes.to_bytes s) = Some key
            /\ List.length key = crypto_box_PUBLICKEYBYTES.

(** The key fetch made at history [hist] answers with a document that
    holds a usable key and a key identifier. *)
Definition key_fetch_answers (w : world) (hist : list event)
           (repo token : string) (key : list byte) (key_id : json) : Prop :=
  exists r fields public_key,
    http_get w hist (public_key_url repo) (auth_headers token) = inr r
    /\ json_body r = Some (JObj fields)
    /\ assoc "key" fields = Some public_key
    /\ usable_key public_key key
    /\ assoc "key_id" fields = Some key_id.

(** A key server without faults: every key fetch answers with a usable
    key. *)
Definition key_server_ok (w : world) : Prop :=
  forall hist repo token, exists key key_id,
    key_fetch_answers w hist repo token key key_id.

Definition run (w : world) (environ : gmap string string)
  : result unit * state := main w environ initial_state.

(** ** The recipient *)

(** Modelled from the spec: the recipient's side of the round trip,
    which the script does not contain.  The holder of the private key
    decodes the Base64 payload and opens the sealed box;
    [crypto_box_seal_open] is libsodium's opening function. *)
Definition decrypt
           (crypto_box_seal_open :
              list byte -> list byte -> list byte -> option (list byte))
           (public_key private_key : list byte) (ciphertext : string)
  : option string :=
  match Base64.b64decode (Bytes.to_bytes ciphertext) with
  | Some sealed =>
      option_map Bytes.of_bytes
                 (crypto_box_seal_open sealed public_key private_key)
  | None => None
  end.

(** Modelled from the spec: a valid key pair for the sealed box of the
    world [w]: a public key of the right size whose sealed boxes the
    private key opens. *)
Definition valid_key_pair (w : world)
           (crypto_box_seal_open :
              list byte -> list byte -> list byte -> option (list byte))
           (public_key private_key : list byte) : Prop :=
  List.length public_key = crypto_box_PUBLICKEYBYTES
  /\ forall message seed,
      crypto_box_seal_open (crypto_box_seal w message public_key seed)
                           public_key private_key = Some message.

(** ** A sample world

    The server always hands out the same key document and answers a
    submit as [put_answer] says; the sealed box is a toy that prefixes
    the message with 32 bytes of the seed. *)

Definition sample_key : list byte := repeat "007"%byte 32.

Definition sample_key_doc : json :=
  JObj [("key_id", JStr "568250167242549743");
        ("key", JStr (Bytes.of_bytes (Base64.b64encode sample_key)))].

Definition toy_seal (message public_key seed : list byte) : list byte :=
  firstn 32 (seed ++ repeat "000"%byte 32) ++ message.

Definition toy_seal_open (sealed public_key private_key : list byte)
  : option (list byte) := Some (skipn 32 sealed).

Definition sample_world (key_doc : json) (put_answer : string -> Z * string)
  : world :=
  {| http_get := fun _ _ _ =>
       inr {| status_code := 200; text := ""; json_body := Some key_doc |};
     http_put := fun _ url _ _ =>
       inr {| status_code := fst (put_answer url);
              text := snd (put_answer url);
              json_body := None |};
     randombytes := fun n => repeat (Bytes.of_N_wrap (N.of_nat n)) 32;
     crypto_box_seal := toy_seal;
     dotenv := fun environ => inr environ |}.

Definition created (url : string) : Z * string := (201%Z, "").

(** Every submit is refused except the one for secret [E]. *)
Definition forbidden_but_E (url : string) : Z * string :=
  if String.eqb url (secret_url "owner/repo" "E") then (204%Z, "")
  else (403%Z, "Forbidden").

(** A key document that lacks its [key] field. *)
Definition key_doc_without_key : json :=
  JObj [("key_id", JStr "568250167242549743")].

(** A server that rotates its key: the answer to a key fetch depends on
    the number of fetches made before. *)
Definition rotating_world : world :=
  {| http_get := fun hist _ _ =>
       inr {| status_code := 200; text := "";
              json_body :=
                Some (JObj
                  [("key_id", JStr (pretty (count_gets hist)));
                   ("key",
                    JStr (Bytes.of_bytes
                            (Base64.b64encode
                               (repeat (Bytes.of_N_wrap
                                          (N.of_nat (count_gets hist))) 32))))]) |};
     http_put := fun _ _ _ _ =>
       inr {| status_code := 201; text := ""; json_body := None |};
     randombytes := fun n => repeat (Bytes.of_N_wrap (N.of_nat n)) 32;
     crypto_box_seal := toy_seal;
     dotenv := fun environ => inr environ |}.

(** The key identifiers of the submits of a trace. *)
Fixpoint submitted_key_ids (t : list event) : list json :=
  match t with
  | [] => []
  | Put _ _ (JObj [(_, _); (_, key_id)]) :: t' => key_id :: submitted_key_ids t'
  | _ :: t' => submitted_key_ids t'
  end.

(** ** Further observations *)

(** The names of the secrets with a non-empty value. *)
Definition attempted_names (items : list (string * option string))
  : list string :=
  map fst (List.filter (fun item => truthy (snd item)) items).

(** A request that stays on target: a GET of the key resource of
    [repo] or a PUT of one of the secrets [names] of [repo], with the
    headers that carry [token]. *)
Definition on_target (repo token : string) (names : list string)
           (e : event) : Prop :=
  match e with
  | Get url hdrs => url = public_key_url repo /\ hdrs = auth_headers token
  | Put url hdrs _ =>
      hdrs = auth_headers token
      /\ exists name, In name names /\ url = secret_url repo name
  | Print _ => True
  end.

(** The line that reports on one item of the dictionary. *)
Definition reports (item : string * option string) (line : string) : Prop :=
  if truthy (snd item)
  then line = set_line (fst item) \/ exists r, line = failed_line (fst item) r
  else line = skip_line (fst item).

(** The newline characters inside a text, and inside the texts of a
    list. *)
Fixpoint newlines (s : string) : nat :=
  match s with
  | EmptyString => 0
  | String c s' => (if Ascii.eqb c "010" then 1 else 0) + newlines s'
  end.

Definition newlines_in (texts : list string) : nat :=
  list_sum (map newlines texts).

(** The lines that one call of [print] writes. *)
Definition print_lines (text : string) : list string :=
  lines (text +:+ String "010" "").

(** The [str] ['\udcff'], which [os.getenv] returns for a variable
    that holds the single byte [FF]. *)
Definition lone_surrogate : string :=
  String "237" (String "179" (String "191" "")).

(** A refusal whose body carries a second line that looks like a
    success line. *)
Definition forbidden_with_mark (url : string) : Z * string :=
  (403%Z, "no" +:+ String "010" "✓ Set secret: D").

(** The success lines among printed lines. *)
Definition is_set_line (line : string) : bool :=
  String.prefix "✓ Set secret: " line.

Definition count_set_lines (printed_lines : list string) : nat :=
  List.length (List.filter is_set_line printed_lines).

(** * Facts *)

Module BytesFacts.
Import Bytes.

Lemma all_complete (b : byte) : existsb (Byte.eqb b) all = true.
Proof. destruct b; vm_compute; reflexivity. Qed.

(** A boolean property checked on the 256 bytes holds of every byte. *)
Lemma forall_byte (P : byte -> bool) :
  forallb P all = true -> forall b, P b = true.
Proof.
  intros H b.
  pose proof (all_complete b) as Hb.
  apply existsb_exists in Hb as [x [Hin Heq]].
  apply Byte.byte_dec_bl in Heq. subst x.
  rewrite forallb_forall in H. now apply H.
Qed.

Lemma forall_byte2 (P : byte -> byte -> bool) :
  forallb (fun a => forallb (P a) all) all = true ->
  forall a b, P a b = true.
Proof.
  intros H a b.
  apply (forall_byte (P a)).
  apply (forall_byte (fun a => forallb (P a) all) H).
Qed.

Lemma of_to_bytes (s : string) : of_bytes (to_bytes s) = s.
Proof. apply string_of_list_byte_of_string. Qed.

Lemma to_of_bytes (b : list byte) : to_bytes (of_bytes b) = b.
Proof. apply list_byte_of_string_of_list_byte. Qed.

End BytesFacts.

Module Base64Facts.
Import Base64.

(** *** Decoding what [b64encode] produced *)

Lemma b2a_a2b (n : N) :
  n < 64 -> Byte.eqb (b2a n) BASE64_PAD = false /\ a2b (b2a n) = Some n.
Proof.
  intros Hn.
  assert (H : forallb
    (fun n => negb (Byte.eqb (b2a n) BASE64_PAD)
              && match a2b (b2a n) with Some m => m =? n | None => false end)
    (map N.of_nat (seq 0 64)) = true) by (vm_compute; reflexivity).
  rewrite forallb_forall in H.
  assert (Hin : In n (map N.of_nat (seq 0 64))).
  { apply in_map_iff. exists (N.to_nat n). split; [apply N2Nat.id|].
    apply in_seq. lia. }
  apply H in Hin. apply andb_prop in Hin as [H1 H3].
  apply negb_true_iff in H1. split; [exact H1|].
  destruct (a2b (b2a n)) as [m|]; [|discriminate].
  apply N.eqb_eq in H3. now subst.
Qed.

Lemma sextet1_lt a : sextet1 a < 64.
Proof.
  apply N.ltb_lt.
  apply (BytesFacts.forall_byte (fun a => sextet1 a <? 64)). vm_compute; reflexivity.
Qed.

Lemma sextet2_lt a b : sextet2 a b < 64.
Proof.
  apply N.ltb_lt.
  apply (BytesFacts.forall_byte2 (fun a b => sextet2 a b <? 64)).
  vm_compute; reflexivity.
Qed.

Lemma sextet3_lt b c : sextet3 b c < 64.
Proof.
  apply N.ltb_lt.
  apply (BytesFacts.forall_byte2 (fun b c => sextet3 b c <? 64)).
  vm_compute; reflexivity.
Qed.

Lemma sextet4_lt c : sextet4 c < 64.
Proof.
  apply N.ltb_lt.
  apply (BytesFacts.forall_byte (fun c => sextet4 c <? 64)). vm_compute; reflexivity.
Qed.

Lemma tail1_lt a : N.shiftl (N.land (val a) 3) 4 < 64.
Proof.
  apply N.ltb_lt.
  apply (BytesFacts.forall_byte (fun a => N.shiftl (N.land (val a) 3) 4 <? 64)).
  vm_compute; reflexivity.
Qed.

Lemma tail2_lt b : N.shiftl (N.land (val b) 15) 2 < 64.
Proof.
  apply N.ltb_lt.
  apply (BytesFacts.forall_byte (fun b => N.shiftl (N.land (val b) 15) 2 <? 64)).
  vm_compute; reflexivity.
Qed.

(** The first output byte of a group is the first input byte, and the
    bits kept for the second one are the high half of [b]. *)
Lemma join1 a b :
  Bytes.of_N_wrap (N.lor (N.shiftl (sextet1 a) 2) (N.shiftr (sextet2 a b) 4)) = a
  /\ N.land (sextet2 a b) 15 = N.shiftr (val b) 4.
Proof.
  pose proof (BytesFacts.forall_byte2
    (fun a b =>
       Byte.eqb (Bytes.of_N_wrap
                   (N.lor (N.shiftl (sextet1 a) 2) (N.shiftr (sextet2 a b) 4))) a
       && (N.land (sextet2 a b) 15 =? N.shiftr (val b) 4))) as H.
  specialize (H ltac:(vm_compute; reflexivity) a b).
  apply andb_prop in H as [H1 H2].
  split; [now apply Byte.byte_dec_bl | now apply N.eqb_eq].
Qed.

Lemma join1_tail a :
  Bytes.of_N_wrap
    (N.lor (N.shiftl (sextet1 a) 2)
           (N.shiftr (N.shiftl (N.land (val a) 3) 4) 4)) = a.
Proof.
  apply Byte.byte_dec_bl.
  apply (BytesFacts.forall_byte
    (fun a => Byte.eqb (Bytes.of_N_wrap
       (N.lor (N.shiftl (sextet1 a) 2)
              (N.shiftr (N.shiftl (N.land (val a) 3) 4) 4))) a)).
  vm_compute; reflexivity.
Qed.

Lemma join2 b c :
  Bytes.of_N_wrap
    (N.lor (N.shiftl (N.shiftr (val b) 4) 4) (N.shiftr (sextet3 b c) 2)) = b
  /\ N.land (sextet3 b c) 3 = N.shiftr (val c) 6.
Proof.
  pose proof (BytesFacts.forall_byte2
    (fun b c =>
       Byte.eqb (Bytes.of_N_wrap
                   (N.lor (N.shiftl (N.shiftr (val b) 4) 4)
                          (N.shiftr (sextet3 b c) 2))) b
       && (N.land (sextet3 b c) 3 =? N.shiftr (val c) 6))) as H.
  specialize (H ltac:(vm_compute; reflexivity) b c).
  apply andb_prop in H as [H1 H2].
  split; [now apply Byte.byte_dec_bl | now apply N.eqb_eq].
Qed.

Lemma join2_tail b :
  Bytes.of_N_wrap
    (N.lor (N.shiftl (N.shiftr (val b) 4) 4)
           (N.shiftr (N.shiftl (N.land (val b) 15) 2) 2)) = b.
Proof.
  apply Byte.byte_dec_bl.
  apply (BytesFacts.forall_byte
    (fun b => Byte.eqb (Bytes.of_N_wrap
       (N.lor (N.shiftl (N.shiftr (val b) 4) 4)
              (N.shiftr (N.shiftl (N.land (val b) 15) 2) 2))) b)).
  vm_compute; reflexivity.
Qed.

Lemma join3 c :
  Bytes.of_N_wrap (N.lor (N.shiftl (N.shiftr (val c) 6) 6) (sextet4 c)) = c.
Proof.
  apply Byte.byte_dec_bl.
  apply (BytesFacts.forall_byte
    (fun c => Byte.eqb (Bytes.of_N_wrap
       (N.lor (N.shiftl (N.shiftr (val c) 6) 6) (sextet4 c))) c)).
  vm_compute; reflexivity.
Qed.

(** One step of the loop on an alphabet character, per position. *)
Section Steps.
Variables (n lc p : N) (rest acc : list byte).
Hypothesis Hn : n < 64.

Lemma step0 : a2b_loop (b2a n :: rest) 0 lc p acc = a2b_loop rest 1 n 0 acc.
Proof. destruct (b2a_a2b n Hn) as [E1 E2]. cbn [a2b_loop]. now rewrite E1, E2. Qed.

Lemma step1 :
  a2b_loop (b2a n :: rest) 1 lc p acc =
  a2b_loop rest 2 (N.land n 15) 0
    (acc ++ [Bytes.of_N_wrap (N.lor (N.shiftl lc 2) (N.shiftr n 4))]).
Proof. destruct (b2a_a2b n Hn) as [E1 E2]. cbn [a2b_loop]. now rewrite E1, E2. Qed.

Lemma step2 :
  a2b_loop (b2a n :: rest) 2 lc p acc =
  a2b_loop rest 3 (N.land n 3) 0
    (acc ++ [Bytes.of_N_wrap (N.lor (N.shiftl lc 4) (N.shiftr n 2))]).
Proof. destruct (b2a_a2b n Hn) as [E1 E2]. cbn [a2b_loop]. now rewrite E1, E2. Qed.

Lemma step3 :
  a2b_loop (b2a n :: rest) 3 lc p acc =
  a2b_loop rest 0 0 0
    (acc ++ [Bytes.of_N_wrap (N.lor (N.shiftl lc 6) n)]).
Proof. destruct (b2a_a2b n Hn) as [E1 E2]. cbn [a2b_loop]. now rewrite E1, E2. Qed.
End Steps.

Lemma list_ind3 {A} (P : list A -> Prop) :
  P [] -> (forall a, P [a]) -> (forall a b, P [a; b]) ->
  (forall a b c l, P l -> P (a :: b :: c :: l)) ->
  forall l, P l.
Proof.
  intros H0 H1 H2 H3.
  fix IH 1. intros [|a [|b [|c l]]].
  - exact H0.
  - apply H1.
  - apply H2.
  - apply H3, IH.
Qed.

Lemma a2b_loop_b64encode (data acc : list byte) :
  a2b_loop (b64encode data) 0 0 0 acc = Some (acc ++ data).
Proof.
  revert acc. induction data as [|a|a b|a b c l IH] using list_ind3; intros acc.
  - cbn. now rewrite app_nil_r.
  - cbn [b64encode].
    rewrite step0 by apply sextet1_lt.
    rewrite step1 by apply tail1_lt.
    rewrite join1_tail. reflexivity.
  - cbn [b64encode].
    rewrite step0 by apply sextet1_lt.
    rewrite step1 by apply sextet2_lt.
    destruct (join1 a b) as [-> ->].
    rewrite step2 by apply tail2_lt.
    rewrite join2_tail. cbn. now rewrite <- app_assoc.
  - cbn [b64encode].
    rewrite step0 by apply sextet1_lt.
    rewrite step1 by apply sextet2_lt.
    destruct (join1 a b) as [-> ->].
    rewrite step2 by apply sextet3_lt.
    destruct (join2 b c) as [-> ->].
    rewrite step3 by apply sextet4_lt.
    rewrite join3, IH. now rewrite <- !app_assoc.
Qed.

(** Decoding inverts encoding. *)
Lemma b64decode_b64encode (data : list byte) :
  b64decode (b64encode data) = Some data.
Proof. apply a2b_loop_b64encode. Qed.

Lemma b2a_ascii (n : N) : Bytes.in_range 0 127 (b2a n) = true.
Proof.
  assert (Htable : forallb (Bytes.in_range 0 127) table_b2a_base64 = true)
    by (vm_compute; reflexivity).
  unfold b2a.
  destruct (nth_in_or_default (N.to_nat n) table_b2a_base64 BASE64_PAD) as [Hin | ->].
  - rewrite forallb_forall in Htable. now apply Htable.
  - reflexivity.
Qed.

Lemma ascii_well_formed (l : list byte) :
  forallb (Bytes.in_range 0 127) l = true -> Bytes.well_formed l = true.
Proof.
  induction l as [|b l IH]; [reflexivity|].
  cbn [forallb Bytes.well_formed]. intros H.
  apply andb_prop in H as [-> H]. now apply IH.
Qed.

(** The Base64 text is ASCII, so decoding it as UTF-8 never fails. *)
Lemma b64encode_well_formed (data : list byte) :
  Bytes.well_formed (b64encode data) = true.
Proof.
  apply ascii_well_formed.
  induction data as [|a|a b|a b c l IH] using list_ind3;
    cbn [b64encode forallb]; rewrite ?b2a_ascii, ?IH; reflexivity.
Qed.

Lemma b64encode_inj (x y : list byte) : b64encode x = b64encode y -> x = y.
Proof.
  intros H. apply (f_equal b64decode) in H.
  rewrite !b64decode_b64encode in H. congruence.
Qed.

End Base64Facts.

(** * The script *)

Local Open Scope nat_scope.

(** ** Running the monad *)

Lemma bind_ok {A B} (c : M A) (k : A -> M B) st a st' :
  c st = (Ok a, st') -> bind c k st = k a st'.
Proof. intros H. unfold bind. now rewrite H. Qed.

Lemma bind_raise {A B} (c : M A) (k : A -> M B) st e st' :
  c st = (Raise e, st') -> bind c k st = (Raise e, st').
Proof. intros H. unfold bind. now rewrite H. Qed.

Lemma bind_assoc {A B C} (c : M A) (k : A -> M B) (h : B -> M C) st :
  bind (bind c k) h st = bind c (fun a => bind (k a) h) st.
Proof. unfold bind. destruct (c st) as [[a|e] st']; reflexivity. Qed.

(** ** [set_secret] through the request it builds *)

Lemma set_secret_built w repo token name value st :
  set_secret w repo token name value st =
  match built_request w repo token value st with
  | (Ok body, st1) =>
      match requests_put w (secret_url repo name) (auth_headers token) body st1 with
      | (Ok r, st2) =>
          if is_success r then (Ok true, log (Print (set_line name)) st2)
          else (Ok false, log (Print (failed_line name r)) st2)
      | (Raise e, st2) => (Raise e, st2)
      end
  | (Raise e, st1) => (Raise e, st1)
  end.
Proof.
  unfold set_secret, built_request. cbv zeta. unfold bind, ret.
  destruct (requests_get _ _ _ st) as [[kr|e] s1]; [|reflexivity].
  destruct (response_json kr s1) as [[kd|e] s2]; [|reflexivity].
  destruct (getitem kd "key" s2) as [[pk|e] s3]; [|reflexivity].
  destruct (encrypt_secret w pk value s3) as [[ev|e] s4]; [|reflexivity].
  destruct (getitem kd "key_id" s4) as [[kid|e] s5]; [|reflexivity].
  destruct (requests_put _ _ _ _ s5) as [[r|e] s6]; [|reflexivity].
  destruct (is_success r); reflexivity.
Qed.

Lemma pure_response_json r : pure_call (response_json r).
Proof. intros st. unfold response_json. now destruct (json_body r). Qed.

Lemma pure_getitem obj key : pure_call (getitem obj key).
Proof.
  intros st. unfold getitem.
  destruct obj as [| | | | |fields]; try reflexivity.
  now destruct (assoc key fields).
Qed.

Lemma pure_encode_utf8 s : pure_call (encode_utf8 s).
Proof. intros st. unfold encode_utf8. now destruct (Bytes.encodable s). Qed.

Lemma pure_str_encode obj : pure_call (str_encode obj).
Proof. intros st. destruct obj; try reflexivity. apply pure_encode_utf8. Qed.

Lemma pure_PublicKey data : pure_call (PublicKey data).
Proof.
  intros st. unfold PublicKey.
  destruct (Base64.b64decode data) as [key|]; [|reflexivity].
  now destruct (Nat.eqb _ _).
Qed.

(** [encrypt_secret] on a usable key and a value without lone
    surrogates: one draw, and the Base64 text of the sealed box. *)
Lemma encrypt_secret_ok w public_key key secret_value st :
  usable_key public_key key ->
  Bytes.encodable secret_value = true ->
  encrypt_secret w public_key secret_value st =
  (Ok (Bytes.of_bytes
         (Base64.b64encode
            (crypto_box_seal w (Bytes.to_bytes secret_value) key
                             (randombytes w (draws st))))),
   {| trace := trace st; draws := S (draws st) |}).
Proof.
  intros (s & -> & Hs & Hdec & Hlen) Hvalue.
  unfold encrypt_secret, bind, str_encode, encode_utf8, decode_utf8, ret, PublicKey.
  rewrite Hs, Hdec, Hlen, Hvalue. cbn.
  now rewrite Base64Facts.b64encode_well_formed.
Qed.

(** On a usable key, a value with a lone surrogate makes
    [secret_value.encode("utf-8")] raise. *)
Lemma encrypt_secret_unencodable w public_key key secret_value st :
  usable_key public_key key ->
  Bytes.encodable secret_value = false ->
  encrypt_secret w public_key secret_value st = (Raise UnicodeEncodeError, st).
Proof.
  intros (s & -> & Hs & Hdec & Hlen) Hvalue.
  unfold encrypt_secret, bind, str_encode, encode_utf8, decode_utf8, ret, raise,
    PublicKey.
  rewrite Hs, Hdec, Hlen, Hvalue. reflexivity.
Qed.

(** [encrypt_secret] never writes to the trace, and it succeeds only on
    a usable key and a value without lone surrogates. *)
Lemma encrypt_secret_inv w public_key secret_value st res st' :
  encrypt_secret w public_key secret_value st = (res, st') ->
  trace st' = trace st
  /\ match res with
     | Ok encrypted_value =>
         exists key, usable_key public_key key
           /\ Bytes.encodable secret_value = true
           /\ encrypted_value =
              Bytes.of_bytes
                (Base64.b64encode
                   (crypto_box_seal w (Bytes.to_bytes secret_value) key
                                    (randombytes w (draws st))))
           /\ draws st' = S (draws st)
     | Raise e => st' = st
     end.
Proof.
  unfold encrypt_secret, bind, str_encode, encode_utf8, decode_utf8, ret, raise,
    PublicKey.
  destruct public_key as [| | |s| |]; try (intros [= <- <-]; auto).
  destruct (Bytes.encodable s) eqn:Hs; [|intros [= <- <-]; auto].
  destruct (Base64.b64decode (Bytes.to_bytes s)) as [key|] eqn:Hdec;
    [|intros [= <- <-]; auto].
  destruct (Nat.eqb _ _) eqn:Hlen; [|intros [= <- <-]; auto].
  destruct (Bytes.encodable secret_value) eqn:Hvalue; [|intros [= <- <-]; auto].
  unfold SealedBox_encrypt, ret. cbv beta iota.
  rewrite Base64Facts.b64encode_well_formed.
  intros [= <- <-]. cbn. split; [reflexivity|].
  exists key. repeat split; auto.
  exists s. repeat split; auto. now apply Nat.eqb_eq.
Qed.

Lemma key_url_event w repo token st :
  snd (requests_get w (public_key_url repo) (auth_headers token) st) =
  log (Get (public_key_url repo) (auth_headers token)) st.
Proof. unfold requests_get. now destruct (http_get _ _ _ _). Qed.

(** Whatever happens, building the request logs the key fetch and
    nothing else. *)
Lemma built_request_trace w repo token value st :
  trace (snd (built_request w repo token value st)) =
  trace st ++ [Get (public_key_url repo) (auth_headers token)].
Proof.
  unfold built_request. cbv zeta. unfold bind.
  pose proof (key_url_event w repo token st) as Hget.
  destruct (requests_get _ _ _ st) as [[kr|e] s1]; cbn in Hget; subst s1;
    [|reflexivity].
  pose proof (pure_response_json kr (log (Get (public_key_url repo) (auth_headers token)) st)) as H1.
  destruct (response_json kr _) as [[kd|e] s2]; cbn in H1; subst s2;
    [|reflexivity].
  pose proof (pure_getitem kd "key" (log (Get (public_key_url repo) (auth_headers token)) st)) as H2.
  destruct (getitem kd "key" _) as [[pk|e] s3]; cbn in H2; subst s3;
    [|reflexivity].
  destruct (encrypt_secret w pk value _) as [[ev|e] s4] eqn:Henc;
    apply encrypt_secret_inv in Henc as [Htr _]; [|cbn; now rewrite Htr].
  pose proof (pure_getitem kd "key_id" s4) as H3.
  destruct (getitem kd "key_id" s4) as [[kid|e] s5]; cbn in H3; subst s5;
    cbn; now rewrite Htr.
Qed.

Lemma built_request_ok w repo token value st key key_id :
  key_fetch_answers w (trace st) repo token key key_id ->
  Bytes.encodable value = true ->
  built_request w repo token value st =
  (Ok (JObj [("encrypted_value",
              JStr (Bytes.of_bytes
                      (Base64.b64encode
                         (crypto_box_seal w (Bytes.to_bytes value) key
                                          (randombytes w (draws st))))));
             ("key_id", key_id)]),
   {| trace := trace st ++ [Get (public_key_url repo) (auth_headers token)];
      draws := S (draws st) |}).
Proof.
  intros (r & fields & pk & Hget & Hjson & Hkey & Husable & Hid) Hvalue.
  unfold built_request. cbv zeta.
  unfold bind at 1. unfold requests_get. rewrite Hget.
  unfold bind at 1. unfold response_json. rewrite Hjson. unfold ret at 1.
  unfold bind at 1. unfold getitem at 1. rewrite Hkey. unfold ret at 1.
  unfold bind at 1. rewrite (encrypt_secret_ok _ _ key _ _ Husable Hvalue).
  unfold bind. unfold getitem. rewrite Hid. reflexivity.
Qed.

(** Conversely, a request is built only from the answer to the fetch
    made by this very call. *)
Lemma built_request_inv w repo token value st body st1 :
  built_request w repo token value st = (Ok body, st1) ->
  exists key key_id,
    key_fetch_answers w (trace st) repo token key key_id
    /\ Bytes.encodable value = true
    /\ body = JObj [("encrypted_value",
                     JStr (Bytes.of_bytes
                             (Base64.b64encode
                                (crypto_box_seal w (Bytes.to_bytes value) key
                                                 (randombytes w (draws st))))));
                    ("key_id", key_id)]
    /\ st1 = {| trace := trace st ++ [Get (public_key_url repo) (auth_headers token)];
                draws := S (draws st) |}.
Proof.
  unfold built_request. cbv zeta. unfold bind at 1. unfold requests_get.
  destruct (http_get w (trace st) _ _) as [e|r] eqn:Hget; [discriminate|].
  unfold bind at 1. unfold response_json.
  destruct (json_body r) as [kd|] eqn:Hjson; [|discriminate].
  unfold ret at 1. unfold bind at 1. unfold getitem at 1.
  destruct kd as [| | | | |fields]; try discriminate.
  destruct (assoc "key" fields) as [pk|] eqn:Hkey; [|discriminate].
  unfold ret at 1. unfold bind at 1.
  destruct (encrypt_secret w pk value _) as [[ev|e] s4] eqn:Henc; [|discriminate].
  apply encrypt_secret_inv in Henc as [Htr (key & Husable & Hvalue & -> & Hdraws)].
  unfold bind, getitem.
  destruct (assoc "key_id" fields) as [kid|] eqn:Hid; [|discriminate].
  unfold ret. intros [= <- <-].
  exists key, kid. split; [|split; [exact Hvalue|split]].
  - exists r, fields, pk. auto.
  - reflexivity.
  - destruct s4 as [t d]. cbn in *. now subst.
Qed.

(** ** One call of [set_secret], one turn of the loop *)

(** The submit was made and answered with [r]. *)
Lemma set_secret_answered w repo token name value st body st1 r :
  built_request w repo token value st = (Ok body, st1) ->
  http_put w (trace st1) (secret_url repo name) (auth_headers token) body = inr r ->
  set_secret w repo token name value st =
  (Ok (is_success r),
   log (Print (if is_success r then set_line name else failed_line name r))
       (log (Put (secret_url repo name) (auth_headers token) body) st1)).
Proof.
  intros Hreq Hput. rewrite set_secret_built, Hreq.
  unfold requests_put. rewrite Hput. now destruct (is_success r).
Qed.

Lemma is_success_iff r :
  is_success r = true <-> (status_code r = 201 \/ status_code r = 204)%Z.
Proof.
  unfold is_success. rewrite orb_true_iff, !Z.eqb_eq. reflexivity.
Qed.

Lemma is_success_false r :
  (status_code r <> 201)%Z -> (status_code r <> 204)%Z -> is_success r = false.
Proof.
  intros H1 H2. destruct (is_success r) eqn:E; [|reflexivity].
  apply is_success_iff in E. tauto.
Qed.

Lemma loop_body_attempt w repo token name c s count st :
  loop_body w repo token (name, Some (String c s)) count st =
  match set_secret w repo token name (String c s) st with
  | (Ok true, st') => (Ok (count + 1), st')
  | (Ok false, st') => (Ok count, st')
  | (Raise e, st') => (Raise e, st')
  end.
Proof.
  unfold loop_body, bind.
  destruct (set_secret _ _ _ _ _ st) as [[[|]|e] st']; reflexivity.
Qed.

Lemma loop_body_skip w repo token name value count st :
  value = None \/ value = Some "" ->
  loop_body w repo token (name, value) count st =
  (Ok count, log (Print (skip_line name)) st).
Proof. intros [-> | ->]; reflexivity. Qed.

Lemma for_items_cons w repo token item rest count st :
  for_items w repo token (item :: rest) count st =
  match loop_body w repo token item count st with
  | (Ok n, st') => for_items w repo token rest n st'
  | (Raise e, st') => (Raise e, st')
  end.
Proof. reflexivity. Qed.

Lemma for_items_app w repo token pre post count st :
  for_items w repo token (pre ++ post) count st =
  match for_items w repo token pre count st with
  | (Ok n, st') => for_items w repo token post n st'
  | (Raise e, st') => (Raise e, st')
  end.
Proof.
  revert count st. induction pre as [|item pre IH]; intros count st.
  - reflexivity.
  - cbn [app]. rewrite !for_items_cons.
    destruct (loop_body w repo token item count st) as [[n|e] st']; [|reflexivity].
    apply IH.
Qed.

Lemma network_calls_app t1 t2 :
  network_calls (t1 ++ t2) = network_calls t1 ++ network_calls t2.
Proof. unfold network_calls. apply List.filter_app. Qed.

(** The three marks are told apart by their first character. *)
Lemma skip_not_failed name name' r : skip_line name <> failed_line name' r.
Proof. unfold skip_line, failed_line. intros H. injection H. congruence. Qed.

Lemma skip_not_set name name' : skip_line name <> set_line name'.
Proof. unfold skip_line, set_line. intros H. injection H. congruence. Qed.

(** ** Skipped secrets *)

(** C1.  A secret whose value is unset ([None]) or empty is skipped: its
    turn of the loop returns normally with the success counter
    unchanged, adds to the trace exactly one event, the skip line, so
    that no key fetch and no submit is made for it, and the loop goes
    on with the remaining secrets.  The skip line is neither a failure
    line nor a success line. *)
Theorem empty_secret_skipped w repo token name value rest count st :
  value = None \/ value = Some "" ->
  loop_body w repo token (name, value) count st =
    (Ok count, log (Print (skip_line name)) st)
  /\ for_items w repo token ((name, value) :: rest) count st =
     for_items w repo token rest count (log (Print (skip_line name)) st)
  /\ network_calls (trace (log (Print (skip_line name)) st)) =
     network_calls (trace st)
  /\ (forall name' r, skip_line name <> failed_line name' r)
  /\ (forall name', skip_line name <> set_line name').
Proof.
  intros Hvalue. pose proof (loop_body_skip w repo token name value count st Hvalue) as Hbody.
  split; [exact Hbody|]. split; [|split; [|split]].
  - rewrite for_items_cons, Hbody. reflexivity.
  - cbn [log trace]. rewrite network_calls_app. cbn. apply app_nil_r.
  - intros. apply skip_not_failed.
  - intros. apply skip_not_set.
Qed.

Lemma empty_secret_skipped_witness :
  loop_body (sample_world sample_key_doc created) "owner/repo" "t0ken"
            ("B", Some "") 0 initial_state
  = (Ok 0, {| trace := [Print "⚠ Skipping B: not set in environment"];
              draws := 0 |}).
Proof.
  exact (proj1 (empty_secret_skipped (sample_world sample_key_doc created)
                  "owner/repo" "t0ken" "B" (Some "") [] 0 initial_state
                  (or_intror eq_refl))).
Defined.

(** ** Classification of a submit *)

(** C2.  Take a non-empty secret whose submit is made (the request was
    built) and answered with response [r].  If the status is 201 or
    204, [set_secret] returns [True] after printing the success line
    and the turn of the loop adds exactly one to the success counter.
    With any other status, [set_secret] returns [False] after printing
    a failure line that carries the status code and the response body,
    and the counter is unchanged. *)
Theorem submit_classified w repo token name c s count st body st1 r :
  built_request w repo token (String c s) st = (Ok body, st1) ->
  http_put w (trace st1) (secret_url repo name) (auth_headers token) body = inr r ->
  let submitted := log (Put (secret_url repo name) (auth_headers token) body) st1 in
  ((status_code r = 201 \/ status_code r = 204)%Z ->
   set_secret w repo token name (String c s) st =
     (Ok true, log (Print ("✓ Set secret: " +:+ name)) submitted)
   /\ loop_body w repo token (name, Some (String c s)) count st =
     (Ok (count + 1), log (Print ("✓ Set secret: " +:+ name)) submitted))
  /\ ((status_code r <> 201)%Z -> (status_code r <> 204)%Z ->
      let line := "✗ Failed to set " +:+ name +:+ ": "
                    +:+ pretty (status_code r) +:+ " " +:+ text r in
      set_secret w repo token name (String c s) st =
        (Ok false, log (Print line) submitted)
      /\ loop_body w repo token (name, Some (String c s)) count st =
        (Ok count, log (Print line) submitted)).
Proof.
  intros Hreq Hput submitted.
  pose proof (set_secret_answered w repo token name _ st body st1 r Hreq Hput) as Hset.
  split.
  - intros Hstatus. apply is_success_iff in Hstatus. rewrite Hstatus in Hset.
    split; [exact Hset|]. now rewrite loop_body_attempt, Hset.
  - intros H1 H2 line. rewrite (is_success_false r H1 H2) in Hset.
    split; [exact Hset|]. now rewrite loop_body_attempt, Hset.
Qed.

Lemma submit_classified_witness :
  loop_body (sample_world sample_key_doc created) "owner/repo" "t0ken"
            ("A", Some "x") 0 initial_state
  = (Ok 1,
     log (Print "✓ Set secret: A")
       (log (Put (secret_url "owner/repo" "A") (auth_headers "t0ken")
                 (JObj [("encrypted_value",
                         JStr "AAAAAAAAAAAAAAAAAAAAAAAAAAAAAAAAAAAAAAAAAAB4");
                        ("key_id", JStr "568250167242549743")]))
            {| trace := [Get (public_key_url "owner/repo") (auth_headers "t0ken")];
               draws := 1 |})).
Proof.
  refine (proj2 (proj1 (submit_classified
            (sample_world sample_key_doc created) "owner/repo" "t0ken" "A"
            "x"%char "" 0 initial_state _ _
            {| status_code := 201; text := ""; json_body := None |}
            _ _) _)).
  - vm_compute. reflexivity.
  - reflexivity.
  - left. reflexivity.
Defined.

(** ** A failed submit *)

(** C6.  When the submit for a secret is answered with a status other
    than 201 and 204, a failure line made of the secret's name, the
    status code and the response body is printed, no exception is
    raised, and the loop goes on with the remaining secrets, the
    success counter unchanged. *)
Theorem failed_submit_continues w repo token name c s rest count st body st1 r :
  built_request w repo token (String c s) st = (Ok body, st1) ->
  http_put w (trace st1) (secret_url repo name) (auth_headers token) body = inr r ->
  (status_code r <> 201)%Z -> (status_code r <> 204)%Z ->
  for_items w repo token ((name, Some (String c s)) :: rest) count st =
  for_items w repo token rest count
    (log (Print ("✗ Failed to set " +:+ name +:+ ": "
                   +:+ pretty (status_code r) +:+ " " +:+ text r))
       (log (Put (secret_url repo name) (auth_headers token) body) st1)).
Proof.
  intros Hreq Hput H1 H2.
  rewrite for_items_cons, loop_body_attempt.
  rewrite (set_secret_answered w repo token name _ st body st1 r Hreq Hput).
  rewrite (is_success_false r H1 H2). reflexivity.
Qed.

(** Secret [D] is refused with 403 and body [Forbidden]; secret [E],
    which follows, is still submitted. *)
Lemma failed_submit_continues_witness :
  printed (trace (snd (for_items (sample_world sample_key_doc forbidden_but_E)
                         "owner/repo" "t0ken"
                         [("D", Some "d"); ("E", Some "e")] 0 initial_state)))
  = ["✗ Failed to set D: 403 Forbidden"; "✓ Set secret: E"].
Proof.
  rewrite (failed_submit_continues
             (sample_world sample_key_doc forbidden_but_E) "owner/repo" "t0ken"
             "D" "d"%char "" [("E", Some "e")] 0 initial_state
             (JObj [("encrypted_value",
                     JStr "AAAAAAAAAAAAAAAAAAAAAAAAAAAAAAAAAAAAAAAAAABk");
                    ("key_id", JStr "568250167242549743")])
             {| trace := [Get (public_key_url "owner/repo") (auth_headers "t0ken")];
                draws := 1 |}
             {| status_code := 403; text := "Forbidden"; json_body := None |}).
  - vm_compute. reflexivity.
  - vm_compute. reflexivity.
  - reflexivity.
  - discriminate.
  - discriminate.
Defined.

(** ** What a completed call has done *)

(** A call of [set_secret] that returns has fetched the key at its own
    start, sealed the value for the key of that answer, submitted it
    and printed one mark. *)
Lemma set_secret_ok_inv w repo token name value st b st' :
  set_secret w repo token name value st = (Ok b, st') ->
  exists key key_id r,
    key_fetch_answers w (trace st) repo token key key_id
    /\ http_put w (trace st ++ [Get (public_key_url repo) (auth_headers token)])
                (secret_url repo name) (auth_headers token)
                (JObj [("encrypted_value", JStr (sealed_text w value key st));
                       ("key_id", key_id)]) = inr r
    /\ b = is_success r
    /\ trace st' =
       trace st ++
         [Get (public_key_url repo) (auth_headers token);
          Put (secret_url repo name) (auth_headers token)
              (JObj [("encrypted_value", JStr (sealed_text w value key st));
                     ("key_id", key_id)]);
          Print (if is_success r then set_line name else failed_line name r)]
    /\ draws st' = S (draws st).
Proof.
  rewrite set_secret_built.
  destruct (built_request w repo token value st) as [[body|e] st1] eqn:Hreq;
    [|discriminate].
  apply built_request_inv in Hreq as (key & key_id & Hfetch & _ & -> & ->).
  unfold requests_put. cbn [trace].
  destruct (http_put w _ _ _ _) as [e|r] eqn:Hput; [discriminate|].
  intros H. exists key, key_id, r.
  split; [exact Hfetch|]. split; [exact Hput|].
  destruct (is_success r); injection H as <- <-; cbn;
    rewrite <- !app_assoc; auto.
Qed.

(** In every case the call starts with the key fetch, and makes no
    other. *)
Lemma set_secret_trace w repo token name value st :
  exists evs,
    trace (snd (set_secret w repo token name value st)) =
      trace st ++ Get (public_key_url repo) (auth_headers token) :: evs
    /\ count_gets evs = 0.
Proof.
  rewrite set_secret_built.
  pose proof (built_request_trace w repo token value st) as Htr.
  destruct (built_request w repo token value st) as [[body|e] st1];
    cbn [snd] in Htr.
  - unfold requests_put.
    destruct (http_put w _ _ _ _) as [e|r].
    + exists [Put (secret_url repo name) (auth_headers token) body].
      cbn. rewrite Htr, <- app_assoc. auto.
    + destruct (is_success r); eexists [Put _ _ _; Print _];
        cbn; rewrite Htr, <- !app_assoc; auto.
  - exists []. cbn. auto.
Qed.

Lemma successes_app w hist evs1 evs2 :
  successes w hist (evs1 ++ evs2) =
  successes w hist evs1 + successes w (hist ++ evs1) evs2.
Proof.
  revert hist. induction evs1 as [|e evs1 IH]; intros hist.
  - cbn. now rewrite app_nil_r.
  - cbn [app successes]. rewrite IH, <- app_assoc. cbn [app]. lia.
Qed.

Lemma count_gets_app t1 t2 : count_gets (t1 ++ t2) = count_gets t1 + count_gets t2.
Proof. unfold count_gets. now rewrite List.filter_app, List.length_app. Qed.

Lemma count_puts_app t1 t2 : count_puts (t1 ++ t2) = count_puts t1 + count_puts t2.
Proof. unfold count_puts. now rewrite List.filter_app, List.length_app. Qed.

Lemma truthy_cases (value : option string) :
  (truthy value = false /\ (value = None \/ value = Some ""))
  \/ (truthy value = true /\ exists c s, value = Some (String c s)).
Proof.
  destruct value as [[|c s]|]; cbn; [left|right|left]; eauto.
Qed.

(** One completed turn of the loop. *)
Lemma loop_body_ok_inv w repo token name value count st n st' :
  loop_body w repo token (name, value) count st = (Ok n, st') ->
  exists evs,
    trace st' = trace st ++ evs
    /\ n = count + successes w (trace st) evs
    /\ count_gets evs = attempts value
    /\ count_puts evs = attempts value.
Proof.
  destruct (truthy_cases value) as [[Ht Hv] | [Ht (c & s & ->)]].
  - rewrite (loop_body_skip _ _ _ _ _ _ _ Hv). intros [= <- <-].
    exists [Print (skip_line name)]. unfold attempts. rewrite Ht.
    cbn. repeat split; auto.
  - rewrite loop_body_attempt.
    destruct (set_secret w repo token name (String c s) st) as [[b|e] st2] eqn:Hset;
      [|discriminate].
    apply set_secret_ok_inv in Hset as (key & key_id & r & _ & Hput & -> & Htr & _).
    intros H.
    assert (Hn : n = count + (if is_success r then 1 else 0) /\ st' = st2)
      by (destruct (is_success r); injection H as <- <-; split; auto; lia).
    destruct Hn as [-> ->].
    eexists. split; [exact Htr|].
    cbn [successes]. rewrite Hput. unfold attempts. cbn.
    repeat split; auto; destruct (is_success r); lia.
Qed.

Lemma attempted_cons name value rest :
  attempted ((name, value) :: rest) = attempts value + attempted rest.
Proof. unfold attempted, attempts. cbn. now destruct (truthy value). Qed.

(** A completed loop: the counter has grown by the number of submits
    answered with 201 or 204, and there was one key fetch and one
    submit per secret with a non-empty value. *)
Lemma for_items_ok_inv w repo token items count st n st' :
  for_items w repo token items count st = (Ok n, st') ->
  exists evs,
    trace st' = trace st ++ evs
    /\ n = count + successes w (trace st) evs
    /\ count_gets evs = attempted items
    /\ count_puts evs = attempted items.
Proof.
  revert count st. induction items as [|[name value] rest IH]; intros count st.
  - intros [= <- <-]. exists []. cbn. rewrite app_nil_r. repeat split; auto.
  - rewrite for_items_cons.
    destruct (loop_body w repo token (name, value) count st) as [[m|e] st1] eqn:Hbody;
      [|discriminate].
    apply loop_body_ok_inv in Hbody as (evs1 & Htr1 & -> & Hg1 & Hp1).
    intros Hrest. apply IH in Hrest as (evs2 & Htr2 & -> & Hg2 & Hp2).
    exists (evs1 ++ evs2). rewrite attempted_cons.
    rewrite successes_app, count_gets_app, count_puts_app, Htr2, Htr1, <- app_assoc.
    repeat split; auto; lia.
Qed.

Lemma successes_le_puts w hist evs : successes w hist evs <= count_puts evs.
Proof.
  revert hist. induction evs as [|e evs IH]; intros hist; [cbn; lia|].
  change (e :: evs) with ([e] ++ evs) at 2. rewrite count_puts_app.
  cbn [successes]. specialize (IH (hist ++ [e])).
  destruct e as [url hdrs|url hdrs body|line]; cbn; try lia.
  destruct (http_put w hist url hdrs body) as [x|r]; [lia|].
  destruct (is_success r); lia.
Qed.

(** ** A secret that is submitted *)

Lemma loop_body_answered w repo token name c s count st key key_id r :
  key_fetch_answers w (trace st) repo token key key_id ->
  Bytes.encodable (String c s) = true ->
  http_put w (trace st ++ [Get (public_key_url repo) (auth_headers token)])
           (secret_url repo name) (auth_headers token)
           (JObj [("encrypted_value", JStr (sealed_text w (String c s) key st));
                  ("key_id", key_id)]) = inr r ->
  loop_body w repo token (name, Some (String c s)) count st =
  (Ok (if is_success r then count + 1 else count),
   {| trace :=
        trace st ++
          [Get (public_key_url repo) (auth_headers token);
           Put (secret_url repo name) (auth_headers token)
               (JObj [("encrypted_value", JStr (sealed_text w (String c s) key st));
                      ("key_id", key_id)]);
           Print (if is_success r then set_line name else failed_line name r)];
      draws := S (draws st) |}).
Proof.
  intros Hfetch Hvalue Hput.
  rewrite loop_body_attempt.
  rewrite (set_secret_answered w repo token name _ st _ _ r
             (built_request_ok _ _ _ _ _ _ _ Hfetch Hvalue) Hput).
  unfold log. cbn [trace draws]. rewrite <- !app_assoc. cbn [app].
  now destruct (is_success r).
Qed.

Lemma publish_all_unfold w repo token secrets st :
  publish_all w repo token secrets st =
  match for_items w repo token secrets 0 st with
  | (Ok n, st') =>
      (Ok tt, log (Print (summary_line n (List.length secrets))) st')
  | (Raise e, st') => (Raise e, st')
  end.
Proof.
  unfold publish_all, bind.
  now destruct (for_items w repo token secrets 0 st) as [[n|e] st'].
Qed.

(** ** The summary line *)

(** Counterexample to C3 as stated: the summary is not out of the
    attempted secrets.  With one secret set and two skipped, the attempted
    secrets are one, and the line printed is [Set 1/3 secrets]. *)
Lemma summary_out_of_attempted_fails :
  ~ (forall w repo token secrets st st',
        publish_all w repo token secrets st = (Ok tt, st') ->
        exists evs,
          trace st' =
          trace st ++ evs ++
            [Print (summary_line (successes w (trace st) evs)
                                 (attempted secrets))]).
Proof.
  intros claim.
  destruct (claim (sample_world sample_key_doc created) "owner/repo" "t0ken"
                  [("A", Some "x"); ("B", Some ""); ("C", None)]
                  initial_state _ eq_refl) as [evs Hevs].
  vm_compute in Hevs.
  match type of Hevs with
  | [?e1; ?e2; ?e3; ?e4; ?e5; ?e6] = _ =>
      change ([e1; e2; e3; e4; e5] ++ [e6] = evs ++
                [Print (summary_line
                          (successes (sample_world sample_key_doc created)
                                     (trace initial_state) evs)
                          (attempted [("A", Some "x"); ("B", Some ""); ("C", None)]))])
        in Hevs
  end.
  apply app_inj_tail in Hevs as [<- Hlast].
  vm_compute in Hlast. discriminate Hlast.
Qed.

(** C3, amended.  When the loop has gone through all the secrets, the
    last thing printed is an empty line followed by [Set n/total
    secrets], where [n] is the number of submits of this run answered
    with 201 or 204 and [total] is the number of all the secrets of
    the dictionary, the skipped ones included; the submits made are as
    many as the secrets with a non-empty value. *)
Theorem summary_counts_all_secrets w repo token secrets st st' :
  publish_all w repo token secrets st = (Ok tt, st') ->
  exists evs,
    trace st' =
      trace st ++ evs ++
        [Print (String "010"
                  ("Set " +:+ pretty (successes w (trace st) evs) +:+ "/"
                     +:+ pretty (List.length secrets) +:+ " secrets"))]
    /\ count_puts evs = attempted secrets
    /\ successes w (trace st) evs <= attempted secrets
    /\ attempted secrets <= List.length secrets.
Proof.
  rewrite publish_all_unfold.
  destruct (for_items w repo token secrets 0 st) as [[n|e] st1] eqn:Hloop;
    [|discriminate].
  apply for_items_ok_inv in Hloop as (evs & Htr & -> & _ & Hputs).
  intros [= <-]. exists evs. cbn [log trace].
  rewrite Htr, <- app_assoc. split; [reflexivity|]. split; [exact Hputs|].
  split.
  - rewrite <- Hputs. apply successes_le_puts.
  - unfold attempted. apply List.filter_length_le.
Qed.

Lemma summary_counts_all_secrets_witness :
  exists evs,
    trace (snd (publish_all (sample_world sample_key_doc created)
                  "owner/repo" "t0ken"
                  [("A", Some "x"); ("B", Some ""); ("C", None)] initial_state))
    = [] ++ evs ++
        [Print (String "010"
                  ("Set " +:+ pretty
                     (successes (sample_world sample_key_doc created) [] evs)
                     +:+ "/" +:+ pretty 3 +:+ " secrets"))].
Proof.
  destruct (summary_counts_all_secrets
              (sample_world sample_key_doc created) "owner/repo" "t0ken"
              [("A", Some "x"); ("B", Some ""); ("C", None)]
              initial_state _ eq_refl) as (evs & Hevs & _).
  exists evs. exact Hevs.
Defined.

(** ** The scenario of three secrets *)

(** C4.  For the dictionary [{"A": "x", "B": "", "C": None}], in a world
    where the key fetch works and every submit is answered with 201,
    the run returns and prints, in this order, the success line of
    [A], the skip lines of [B] and [C], an empty line and
    [Set 1/3 secrets]. *)
Theorem scenario_one_of_three w repo token :
  key_server_ok w ->
  (forall hist url hdrs body,
      exists r, http_put w hist url hdrs body = inr r /\ status_code r = 201%Z) ->
  exists st',
    publish_all w repo token [("A", Some "x"); ("B", Some ""); ("C", None)]
                initial_state = (Ok tt, st')
    /\ printed (trace st') =
       ["✓ Set secret: A";
        "⚠ Skipping B: not set in environment";
        "⚠ Skipping C: not set in environment";
        String "010" "Set 1/3 secrets"]
    /\ lines (stdout (trace st')) =
       ["✓ Set secret: A";
        "⚠ Skipping B: not set in environment";
        "⚠ Skipping C: not set in environment";
        "";
        "Set 1/3 secrets"].
Proof.
  intros Hkeys Hputs.
  destruct (Hkeys (trace initial_state) repo token) as (key & key_id & Hfetch).
  destruct (Hputs (trace initial_state ++ [Get (public_key_url repo) (auth_headers token)])
                  (secret_url repo "A") (auth_headers token)
                  (JObj [("encrypted_value", JStr (sealed_text w "x" key initial_state));
                         ("key_id", key_id)])) as (r & Hput & Hstatus).
  assert (Hok : is_success r = true) by (apply is_success_iff; auto).
  rewrite publish_all_unfold, for_items_cons.
  rewrite (loop_body_answered w repo token "A" "x" "" 0 initial_state key key_id r
             Hfetch eq_refl Hput), Hok.
  eexists. split; [reflexivity|]. split; reflexivity.
Qed.

Lemma sample_key_server_ok key_doc key key_id put_answer :
  (exists fields public_key,
      key_doc = JObj fields /\ assoc "key" fields = Some public_key
      /\ usable_key public_key key /\ assoc "key_id" fields = Some key_id) ->
  key_server_ok (sample_world key_doc put_answer).
Proof.
  intros (fields & pk & -> & Hkey & Husable & Hid) hist repo token.
  exists key, key_id, {| status_code := 200; text := ""; json_body := Some (JObj fields) |}, fields, pk.
  auto.
Qed.

Lemma sample_key_doc_ok put_answer :
  key_server_ok (sample_world sample_key_doc put_answer).
Proof.
  apply (sample_key_server_ok _ sample_key (JStr "568250167242549743")).
  eexists _, _. split; [reflexivity|]. split; [reflexivity|]. split; [|reflexivity].
  eexists. split; [reflexivity|]. repeat split; vm_compute; reflexivity.
Qed.

Lemma scenario_one_of_three_witness :
  exists st',
    publish_all (sample_world sample_key_doc created) "owner/repo" "t0ken"
                [("A", Some "x"); ("B", Some ""); ("C", None)]
                initial_state = (Ok tt, st')
    /\ lines (stdout (trace st')) =
       ["✓ Set secret: A";
        "⚠ Skipping B: not set in environment";
        "⚠ Skipping C: not set in environment";
        "";
        "Set 1/3 secrets"].
Proof.
  destruct (scenario_one_of_three
              (sample_world sample_key_doc created) "owner/repo" "t0ken"
              (sample_key_doc_ok created)) as (st' & Hrun & _ & Hlines).
  - intros hist url hdrs body. eexists. split; reflexivity.
  - exists st'. split; assumption.
Defined.

(** ** The exit status *)

Lemma main_loaded w environ env st :
  dotenv w environ = inr env ->
  main w environ st =
  match getenv env "GITHUB_REPO", getenv env "GITHUB_TOKEN" with
  | Some (String c1 r), Some (String c2 t) =>
      publish_all w (String c1 r) (String c2 t)
                  (map (fun name => (name, getenv env name)) secret_names) st
  | _, _ =>
      (Raise (SystemExit 1),
       log (Print "Error: GITHUB_REPO and GITHUB_TOKEN must be set") st)
  end.
Proof.
  intros Hload. unfold main, bind, load_dotenv. rewrite Hload. unfold ret.
  destruct (getenv env "GITHUB_REPO") as [[|c1 r]|];
    destruct (getenv env "GITHUB_TOKEN") as [[|c2 t]|]; reflexivity.
Qed.

Lemma main_missing w environ env :
  dotenv w environ = inr env ->
  (getenv env "GITHUB_REPO" = None \/ getenv env "GITHUB_REPO" = Some ""
   \/ getenv env "GITHUB_TOKEN" = None \/ getenv env "GITHUB_TOKEN" = Some "") ->
  run w environ =
  (Raise (SystemExit 1),
   {| trace := [Print "Error: GITHUB_REPO and GITHUB_TOKEN must be set"];
      draws := 0 |}).
Proof.
  intros Hload H. unfold run. rewrite (main_loaded _ _ _ _ Hload).
  destruct (getenv env "GITHUB_REPO") as [[|c1 r]|];
    destruct (getenv env "GITHUB_TOKEN") as [[|c2 t]|];
    try reflexivity.
  destruct H as [H|[H|[H|H]]]; discriminate.
Qed.

Lemma main_present w environ env repo token :
  dotenv w environ = inr env ->
  getenv env "GITHUB_REPO" = Some repo -> repo <> "" ->
  getenv env "GITHUB_TOKEN" = Some token -> token <> "" ->
  run w environ =
  publish_all w repo token
    (map (fun name => (name, getenv env name)) secret_names) initial_state.
Proof.
  intros Hload Hrepo Hr Htoken Ht. unfold run.
  rewrite (main_loaded _ _ _ _ Hload), Hrepo, Htoken.
  destruct repo as [|c1 r]; [congruence|].
  destruct token as [|c2 t]; [congruence|]. reflexivity.
Qed.

(** Counterexample to C5 as stated: with the target identifier and the
    credential both set, the exit status is not always 0.  Here the key
    document lacks its [key] field, the [KeyError] ends the run and the
    exit status is 1. *)
Lemma both_present_exit_nonzero :
  ~ (forall w environ env repo token,
        dotenv w environ = inr env ->
        getenv env "GITHUB_REPO" = Some repo ->
        repo <> "" ->
        getenv env "GITHUB_TOKEN" = Some token ->
        token <> "" ->
        exit_status (fst (run w environ)) = 0%Z).
Proof.
  intros claim.
  specialize (claim (sample_world (JObj [("key_id", JStr "568250167242549743")])
                                  created)
                    (<["GITHUB_REPO" := "owner/repo"]>
                       (<["GITHUB_TOKEN" := "t0ken"]>
                          (<["SLACK_USER_ID" := "U1"]> ∅)))
                    _ "owner/repo" "t0ken" eq_refl eq_refl ltac:(discriminate)
                    eq_refl ltac:(discriminate)).
  vm_compute in claim. discriminate claim.
Qed.

(** C5, amended.  Let [env] be the environment that [load_dotenv()]
    leaves.  When the target identifier or the credential is unset (or
    empty) in it, the run ends with exit status 1 and has made no
    network call.  When both are set and no exception escapes the
    processing of the secrets, that is, the loop over them completes,
    the run returns and the exit status is 0, whatever the number [n]
    of submits that succeeded. *)
Theorem exit_status_of_run w environ env :
  dotenv w environ = inr env ->
  ((getenv env "GITHUB_REPO" = None \/ getenv env "GITHUB_REPO" = Some ""
    \/ getenv env "GITHUB_TOKEN" = None \/ getenv env "GITHUB_TOKEN" = Some "") ->
   exit_status (fst (run w environ)) = 1%Z
   /\ network_calls (trace (snd (run w environ))) = [])
  /\ (forall repo token n st',
         getenv env "GITHUB_REPO" = Some repo -> repo <> "" ->
         getenv env "GITHUB_TOKEN" = Some token -> token <> "" ->
         for_items w repo token
                   (map (fun name => (name, getenv env name)) secret_names)
                   0 initial_state = (Ok n, st') ->
         fst (run w environ) = Ok tt
         /\ exit_status (fst (run w environ)) = 0%Z).
Proof.
  intros Hload. split.
  - intros H. rewrite (main_missing w environ env Hload H). split; reflexivity.
  - intros repo token n st' Hrepo Hr Htoken Ht Hloop.
    rewrite (main_present w environ env repo token Hload Hrepo Hr Htoken Ht).
    rewrite publish_all_unfold, Hloop. split; reflexivity.
Qed.

(** Without the two settings the exit status is 1; with them, and the
    only submit refused with 403, it is 0. *)
Lemma exit_status_of_run_witness :
  exit_status (fst (run (sample_world sample_key_doc forbidden_but_E) ∅)) = 1%Z
  /\ exit_status
       (fst (run (sample_world sample_key_doc forbidden_but_E)
                 (<["GITHUB_REPO" := "owner/repo"]>
                    (<["GITHUB_TOKEN" := "t0ken"]>
                       (<["SLACK_USER_ID" := "U1"]> ∅))))) = 0%Z.
Proof.
  split.
  - apply (proj1 (exit_status_of_run
                    (sample_world sample_key_doc forbidden_but_E) ∅ ∅ eq_refl)).
    left. reflexivity.
  - eapply (proj2 (exit_status_of_run
                     (sample_world sample_key_doc forbidden_but_E)
                     (<["GITHUB_REPO" := "owner/repo"]>
                        (<["GITHUB_TOKEN" := "t0ken"]>
                           (<["SLACK_USER_ID" := "U1"]> ∅)))
                     _ eq_refl) "owner/repo" "t0ken").
    + reflexivity.
    + discriminate.
    + reflexivity.
    + discriminate.
    + vm_compute. reflexivity.
Defined.

(** ** A key document without its fields *)

Lemma encrypt_secret_raises w public_key secret_value st e st' :
  encrypt_secret w public_key secret_value st = (Raise e, st') ->
  e = AttributeError \/ e = UnicodeEncodeError \/ e = BinasciiError
  \/ e = ValueError.
Proof.
  unfold encrypt_secret, bind, str_encode, encode_utf8, decode_utf8, ret, raise,
    PublicKey.
  destruct public_key as [| | |s| |]; try (intros [= <- _]; auto).
  destruct (Bytes.encodable s); [|intros [= <- _]; auto].
  destruct (Base64.b64decode (Bytes.to_bytes s)) as [key|];
    [|intros [= <- _]; auto].
  destruct (Nat.eqb _ _); [|intros [= <- _]; auto].
  destruct (Bytes.encodable secret_value); [|intros [= <- _]; auto].
  unfold SealedBox_encrypt, ret. cbv beta iota.
  rewrite Base64Facts.b64encode_well_formed. discriminate.
Qed.

Lemma built_request_malformed w repo token value st r fields :
  http_get w (trace st) (public_key_url repo) (auth_headers token) = inr r ->
  json_body r = Some (JObj fields) ->
  assoc "key" fields = None \/ assoc "key_id" fields = None ->
  exists e st1,
    built_request w repo token value st = (Raise e, st1)
    /\ (forall code, e <> SystemExit code)
    /\ (assoc "key" fields = None -> e = KeyError "key")
    /\ (forall public_key key,
           assoc "key" fields = Some public_key -> usable_key public_key key ->
           e = if Bytes.encodable value then KeyError "key_id"
               else UnicodeEncodeError).
Proof.
  intros Hget Hjson Hmissing.
  unfold built_request. cbv zeta.
  unfold bind at 1. unfold requests_get. rewrite Hget.
  unfold bind at 1. unfold response_json. rewrite Hjson. unfold ret at 1.
  unfold bind at 1. unfold getitem at 1.
  destruct (assoc "key" fields) as [pk|] eqn:Hkey.
  - destruct Hmissing as [?|Hid]; [discriminate|].
    unfold ret at 1. unfold bind at 1.
    destruct (encrypt_secret w pk value _) as [[ev|e] s4] eqn:Henc.
    + unfold bind, getitem. rewrite Hid. unfold raise.
      eexists _, _. split; [reflexivity|].
      split; [discriminate|]. split; [discriminate|].
      intros _ _ _ _.
      apply encrypt_secret_inv in Henc as [_ (_ & _ & -> & _)]. reflexivity.
    + exists e, s4. split; [reflexivity|].
      pose proof (encrypt_secret_raises _ _ _ _ _ _ Henc) as He.
      split; [intros code; destruct He as [->|[->|[->| ->]]]; discriminate|].
      split; [discriminate|].
      intros public_key key [= <-] Husable.
      destruct (Bytes.encodable value) eqn:Hvalue.
      * rewrite (encrypt_secret_ok _ _ key _ _ Husable Hvalue) in Henc.
        discriminate.
      * rewrite (encrypt_secret_unencodable _ _ key _ _ Husable Hvalue) in Henc.
        now injection Henc as <- _.
  - unfold raise. eexists _, _. split; [reflexivity|].
    split; [discriminate|]. split; [reflexivity|]. discriminate.
Qed.

(** C7.  Suppose the loop has come to a secret with a non-empty value
    and the key fetch made for it is answered with a document that
    lacks the field [key] or the field [key_id].  Then the whole run
    ends there with an exception that nobody catches (a [KeyError]
    for [key]; when the key itself is usable, a [KeyError] for
    [key_id], or the [UnicodeEncodeError] of line 18 if the value has
    a lone surrogate): the exit status is 1, and after the key fetch
    nothing more happens, no submit, no failure line for this secret,
    no turn for the remaining secrets and no summary. *)
Theorem malformed_key_response_aborts
        w repo token pre name c s rest st0 n st r fields :
  for_items w repo token pre 0 st0 = (Ok n, st) ->
  http_get w (trace st) (public_key_url repo) (auth_headers token) = inr r ->
  json_body r = Some (JObj fields) ->
  assoc "key" fields = None \/ assoc "key_id" fields = None ->
  exists e st',
    publish_all w repo token (pre ++ (name, Some (String c s)) :: rest) st0
    = (Raise e, st')
    /\ exit_status (@Raise unit e) = 1%Z
    /\ (forall code, e <> SystemExit code)
    /\ trace st' = trace st ++ [Get (public_key_url repo) (auth_headers token)]
    /\ (assoc "key" fields = None -> e = KeyError "key")
    /\ (forall public_key key,
           assoc "key" fields = Some public_key -> usable_key public_key key ->
           e = if Bytes.encodable (String c s) then KeyError "key_id"
               else UnicodeEncodeError).
Proof.
  intros Hpre Hget Hjson Hmissing.
  destruct (built_request_malformed w repo token (String c s) st r fields
              Hget Hjson Hmissing) as (e & st1 & Hreq & Hexit & Hkey & Hid).
  exists e, st1.
  rewrite publish_all_unfold, for_items_app, Hpre, for_items_cons.
  rewrite loop_body_attempt, set_secret_built, Hreq.
  split; [reflexivity|]. split; [|split; [exact Hexit|]].
  - destruct e; try reflexivity. now destruct (Hexit code).
  - split; [|split; assumption].
    pose proof (built_request_trace w repo token (String c s) st) as Htr.
    now rewrite Hreq in Htr.
Qed.

Lemma malformed_key_response_aborts_witness :
  exists st',
    publish_all (sample_world key_doc_without_key created) "owner/repo" "t0ken"
                ([("A", None)] ++ ("B", Some "b") :: [("C", Some "c")])
                initial_state
    = (Raise (KeyError "key"), st')
    /\ trace st' =
       [Print "⚠ Skipping A: not set in environment";
        Get (public_key_url "owner/repo") (auth_headers "t0ken")].
Proof.
  destruct (malformed_key_response_aborts
              (sample_world key_doc_without_key created) "owner/repo" "t0ken"
              [("A", None)] "B" "b"%char "" [("C", Some "c")] initial_state
              0 {| trace := [Print "⚠ Skipping A: not set in environment"];
                   draws := 0 |}
              {| status_code := 200; text := "";
                 json_body := Some key_doc_without_key |}
              [("key_id", JStr "568250167242549743")]
              eq_refl eq_refl eq_refl (or_introl eq_refl))
    as (e & st' & Hrun & _ & _ & Htr & Hkey & _).
  exists st'. rewrite Hrun, (Hkey eq_refl). split; [reflexivity|exact Htr].
Defined.

(** ** One key fetch per secret *)

(** C10.  Every call of [set_secret] begins, whatever came before it,
    with a GET of the key resource that carries the bearer token, and
    makes no other GET.  A call that returns has sealed the value for
    the key found in the answer to that very GET, asked at the history
    of the call, and has submitted it with the key identifier of the
    same answer; nothing is kept from an earlier call.  In a completed
    loop the key fetches are as many as the secrets with a non-empty
    value. *)
Theorem key_fetched_per_secret w repo token :
  (forall name value st,
      exists evs,
        trace (snd (set_secret w repo token name value st)) =
          trace st ++
            Get ("https://api.github.com/repos/" +:+ repo
                   +:+ "/actions/secrets/public-key")
                [("Authorization", "Bearer " +:+ token);
                 ("Accept", "application/vnd.github.v3+json")] :: evs
        /\ count_gets evs = 0)
  /\ (forall name value st b st',
         set_secret w repo token name value st = (Ok b, st') ->
         exists key key_id,
           key_fetch_answers w (trace st) repo token key key_id
           /\ In (Put (secret_url repo name) (auth_headers token)
                      (JObj [("encrypted_value",
                              JStr (Bytes.of_bytes
                                      (Base64.b64encode
                                         (crypto_box_seal w
                                            (Bytes.to_bytes value) key
                                            (randombytes w (draws st))))));
                             ("key_id", key_id)]))
                 (trace st'))
  /\ (forall items count st n st',
         for_items w repo token items count st = (Ok n, st') ->
         count_gets (trace st') = count_gets (trace st) + attempted items).
Proof.
  split; [|split].
  - intros name value st. apply set_secret_trace.
  - intros name value st b st' Hset.
    apply set_secret_ok_inv in Hset as (key & key_id & r & Hfetch & _ & _ & Htr & _).
    exists key, key_id. split; [exact Hfetch|].
    rewrite Htr. apply in_or_app. right. right. left. reflexivity.
  - intros items count st n st' Hloop.
    apply for_items_ok_inv in Hloop as (evs & -> & _ & Hgets & _).
    now rewrite count_gets_app, Hgets.
Qed.

(** ** The round trip of the sealed box *)

Lemma decrypt_sealed_text w crypto_box_seal_open public_key private_key
      plaintext seed :
  valid_key_pair w crypto_box_seal_open public_key private_key ->
  decrypt crypto_box_seal_open public_key private_key
          (Bytes.of_bytes
             (Base64.b64encode
                (crypto_box_seal w (Bytes.to_bytes plaintext) public_key seed)))
  = Some plaintext.
Proof.
  intros [_ Hopen]. unfold decrypt.
  rewrite BytesFacts.to_of_bytes, Base64Facts.b64decode_b64encode, Hopen.
  cbn. now rewrite BytesFacts.of_to_bytes.
Qed.

(** C8.  Let [public_key] and [private_key] be a valid key pair, and
    [key_text] a Base64 text of the public key.  Every ciphertext that
    [encrypt_secret] produces for a plaintext, in any state, decrypts
    with the key pair to that plaintext.  And a ciphertext is produced
    whenever the two [encode("utf-8")] calls of lines 16 and 18 pass,
    that is, when neither the key text nor the plaintext has a lone
    surrogate. *)
Theorem encrypt_decrypt_round_trip
        w crypto_box_seal_open public_key private_key key_text plaintext st :
  valid_key_pair w crypto_box_seal_open public_key private_key ->
  Base64.b64decode (Bytes.to_bytes key_text) = Some public_key ->
  (forall ciphertext st',
      encrypt_secret w (JStr key_text) plaintext st = (Ok ciphertext, st') ->
      decrypt crypto_box_seal_open public_key private_key ciphertext
      = Some plaintext)
  /\ (Bytes.encodable key_text = true ->
      Bytes.encodable plaintext = true ->
      exists ciphertext st',
        encrypt_secret w (JStr key_text) plaintext st = (Ok ciphertext, st')
        /\ decrypt crypto_box_seal_open public_key private_key ciphertext
           = Some plaintext).
Proof.
  intros Hpair Hkey. split.
  - intros ciphertext st' Henc.
    apply encrypt_secret_inv in Henc
      as [_ (key & (s & [= <-] & _ & Hdec & _) & _ & -> & _)].
    assert (key = public_key) as -> by congruence.
    now apply decrypt_sealed_text.
  - intros Htext Hplain.
    assert (Husable : usable_key (JStr key_text) public_key)
      by (exists key_text; destruct Hpair; auto).
    rewrite (encrypt_secret_ok w _ public_key plaintext st Husable Hplain).
    eexists _, _. split; [reflexivity|].
    now apply decrypt_sealed_text.
Qed.

Lemma toy_seal_opens message public_key private_key seed :
  toy_seal_open (toy_seal message public_key seed) public_key private_key
  = Some message.
Proof.
  unfold toy_seal_open, toy_seal. f_equal.
  assert (Hlen : List.length (firstn 32 (seed ++ repeat "000"%byte 32)) = 32%nat).
  { apply List.firstn_length_le.
    rewrite List.length_app, List.repeat_length. lia. }
  rewrite List.skipn_app, Hlen, Nat.sub_diag.
  rewrite <- Hlen at 1. now rewrite List.skipn_all.
Qed.

Lemma encrypt_decrypt_round_trip_witness :
  exists ciphertext st',
    encrypt_secret (sample_world sample_key_doc created)
                   (JStr "BwcHBwcHBwcHBwcHBwcHBwcHBwcHBwcHBwcHBwcHBwc=")
                   "s3cret" initial_state = (Ok ciphertext, st')
    /\ decrypt toy_seal_open sample_key [] ciphertext = Some "s3cret".
Proof.
  apply (encrypt_decrypt_round_trip
           (sample_world sample_key_doc created) toy_seal_open sample_key []).
  - split; [reflexivity|]. intros message seed. apply toy_seal_opens.
  - vm_compute. reflexivity.
  - reflexivity.
  - reflexivity.
Defined.

(** With a server that rotates its key, each secret is submitted under
    the key identifier of its own fetch. *)
Lemma key_fetched_per_secret_witness :
  exists st',
    for_items rotating_world "owner/repo" "t0ken"
              [("A", Some "a"); ("B", None); ("C", Some "c")] 0 initial_state
    = (Ok 2, st')
    /\ count_gets (trace st') = 2
    /\ submitted_key_ids (trace st') = [JStr "0"; JStr "1"].
Proof.
  eexists. split; [vm_compute; reflexivity|]. split; [|reflexivity].
  apply (proj2 (proj2 (key_fetched_per_secret rotating_world "owner/repo" "t0ken"))
           [("A", Some "a"); ("B", None); ("C", Some "c")] 0 initial_state 2).
  vm_compute. reflexivity.
Defined.

(** * More on the script *)

(** ** [encrypt_secret] *)

Lemma usable_key_unique public_key key1 key2 :
  usable_key public_key key1 -> usable_key public_key key2 -> key1 = key2.
Proof.
  intros (s1 & -> & _ & H1 & _) (s2 & [= <-] & _ & H2 & _). congruence.
Qed.

(** X1.  The outcomes of [encrypt_secret].  It returns exactly when
    [public_key] is a string without lone surrogates that is the
    Base64 text of 32 bytes and the value has no lone surrogate
    either: the result is then the Base64 text of the box sealed for
    these bytes, and one draw of randomness has been used.  Otherwise
    it raises and leaves the state as it was (no draw is used):
    [AttributeError] when the key is not a string,
    [UnicodeEncodeError] when the key string has a lone surrogate,
    [binascii.Error] when it is not Base64, [ValueError] when it does
    not decode to 32 bytes, and [UnicodeEncodeError] when the key is
    usable but the value has a lone surrogate.  In every case nothing
    is logged. *)
Theorem encrypt_secret_outcomes w public_key secret_value st :
  (exists key,
      usable_key public_key key
      /\ Bytes.encodable secret_value = true
      /\ encrypt_secret w public_key secret_value st =
         (Ok (Bytes.of_bytes
                (Base64.b64encode
                   (crypto_box_seal w (Bytes.to_bytes secret_value) key
                                    (randombytes w (draws st))))),
          {| trace := trace st; draws := S (draws st) |}))
  \/ (exists e,
         encrypt_secret w public_key secret_value st = (Raise e, st)
         /\ ((e = AttributeError /\ forall s, public_key <> JStr s)
             \/ (e = UnicodeEncodeError
                 /\ exists s, public_key = JStr s
                      /\ Bytes.encodable s = false)
             \/ (e = BinasciiError
                 /\ exists s, public_key = JStr s
                      /\ Bytes.encodable s = true
                      /\ Base64.b64decode (Bytes.to_bytes s) = None)
             \/ (e = ValueError
                 /\ exists s key, public_key = JStr s
                      /\ Bytes.encodable s = true
                      /\ Base64.b64decode (Bytes.to_bytes s) = Some key
                      /\ List.length key <> 32)
             \/ (e = UnicodeEncodeError
                 /\ Bytes.encodable secret_value = false
                 /\ exists key, usable_key public_key key))).
Proof.
  unfold encrypt_secret, bind, str_encode, encode_utf8, decode_utf8, ret, raise,
    PublicKey.
  destruct public_key as [| | |s| |];
    try (right; eexists; split; [reflexivity|];
         left; split; [reflexivity|discriminate]).
  destruct (Bytes.encodable s) eqn:Hs.
  2:{ right. eexists. split; [reflexivity|]. right. left.
      split; [reflexivity|]. exists s. auto. }
  destruct (Base64.b64decode (Bytes.to_bytes s)) as [key|] eqn:Hdec.
  2:{ right. eexists. split; [reflexivity|]. right. right. left.
      split; [reflexivity|]. exists s. auto. }
  destruct (Nat.eqb _ _) eqn:Hlen.
  2:{ right. eexists. split; [reflexivity|]. right. right. right. left.
      split; [reflexivity|]. exists s, key. repeat split; auto.
      now apply Nat.eqb_neq in Hlen. }
  apply Nat.eqb_eq in Hlen.
  assert (Husable : usable_key (JStr s) key) by (exists s; auto).
  destruct (Bytes.encodable secret_value) eqn:Hvalue.
  - left. exists key. split; [exact Husable|]. split; [reflexivity|].
    unfold SealedBox_encrypt, ret. cbv beta iota.
    now rewrite Base64Facts.b64encode_well_formed.
  - right. eexists. split; [reflexivity|]. right. right. right. right.
    split; [reflexivity|]. split; [reflexivity|]. now exists key.
Qed.

Lemma string_of_list_byte_length (l : list byte) :
  String.length (string_of_list_byte l) = List.length l.
Proof.
  unfold string_of_list_byte.
  induction l as [|b l IH]; cbn; [reflexivity|]. now f_equal.
Qed.

Lemma b64encode_length (data : list byte) :
  List.length (Base64.b64encode data) = 4 * ((List.length data + 2) / 3).
Proof.
  induction data as [|a|a b|a b c l IH] using Base64Facts.list_ind3;
    try reflexivity.
  cbn [Base64.b64encode List.length]. rewrite IH.
  replace (S (S (S (List.length l))) + 2) with (1 * 3 + (List.length l + 2)) by lia.
  rewrite Nat.div_add_l by lia. lia.
Qed.

(** X2.  The text that [encrypt_secret] returns is the Base64 text of
    the sealed box: decoding it gives the sealed bytes back, and its
    length is four characters for every three bytes of the box,
    rounded up. *)
Theorem encrypt_secret_payload w public_key secret_value st ciphertext st' :
  encrypt_secret w public_key secret_value st = (Ok ciphertext, st') ->
  exists key,
    usable_key public_key key
    /\ Base64.b64decode (Bytes.to_bytes ciphertext) =
       Some (crypto_box_seal w (Bytes.to_bytes secret_value) key
                             (randombytes w (draws st)))
    /\ String.length ciphertext =
       4 * ((List.length
               (crypto_box_seal w (Bytes.to_bytes secret_value) key
                                (randombytes w (draws st))) + 2) / 3).
Proof.
  intros Henc.
  apply encrypt_secret_inv in Henc as [_ (key & Husable & _ & -> & _)].
  exists key. split; [exact Husable|]. split.
  - rewrite BytesFacts.to_of_bytes. apply Base64Facts.b64decode_b64encode.
  - unfold Bytes.of_bytes.
    rewrite string_of_list_byte_length. apply b64encode_length.
Qed.

Lemma encrypt_secret_payload_witness :
  exists key,
    usable_key (JStr "BwcHBwcHBwcHBwcHBwcHBwcHBwcHBwcHBwcHBwcHBwc=") key
    /\ Base64.b64decode
         (Bytes.to_bytes "AAAAAAAAAAAAAAAAAAAAAAAAAAAAAAAAAAAAAAAAAAB4")
       = Some (toy_seal (Bytes.to_bytes "x") key (repeat "000"%byte 32))
    /\ String.length "AAAAAAAAAAAAAAAAAAAAAAAAAAAAAAAAAAAAAAAAAAB4"
       = 4 * ((List.length
                 (toy_seal (Bytes.to_bytes "x") key (repeat "000"%byte 32))
               + 2) / 3).
Proof.
  exact (encrypt_secret_payload
           (sample_world sample_key_doc created)
           (JStr "BwcHBwcHBwcHBwcHBwcHBwcHBwcHBwcHBwcHBwcHBwc=") "x"
           initial_state
           "AAAAAAAAAAAAAAAAAAAAAAAAAAAAAAAAAAAAAAAAAAB4"
           {| trace := []; draws := 1 |} eq_refl).
Defined.

(** X3.  Two calls of [encrypt_secret] with the same key and the same
    value return the same text exactly when libsodium returned the
    same sealed bytes for the two draws: the coding of the script
    never merges two different boxes. *)
Theorem encrypt_secret_same_text w public_key secret_value st1 st2 c1 c2 st1' st2' :
  encrypt_secret w public_key secret_value st1 = (Ok c1, st1') ->
  encrypt_secret w public_key secret_value st2 = (Ok c2, st2') ->
  exists key,
    usable_key public_key key
    /\ (c1 = c2 <->
        crypto_box_seal w (Bytes.to_bytes secret_value) key
                        (randombytes w (draws st1))
        = crypto_box_seal w (Bytes.to_bytes secret_value) key
                          (randombytes w (draws st2))).
Proof.
  intros H1 H2.
  apply encrypt_secret_inv in H1 as [_ (key & Husable & _ & -> & _)].
  apply encrypt_secret_inv in H2 as [_ (key2 & Husable2 & _ & -> & _)].
  rewrite <- (usable_key_unique _ _ _ Husable Husable2).
  exists key. split; [exact Husable|]. split.
  - intros Heq. apply Base64Facts.b64encode_inj.
    apply (f_equal Bytes.to_bytes) in Heq.
    now rewrite !BytesFacts.to_of_bytes in Heq.
  - now intros ->.
Qed.

Lemma encrypt_secret_same_text_witness :
  exists key,
    usable_key (JStr "BwcHBwcHBwcHBwcHBwcHBwcHBwcHBwcHBwcHBwcHBwc=") key
    /\ ("AAAAAAAAAAAAAAAAAAAAAAAAAAAAAAAAAAAAAAAAAAB4"
        = "AQEBAQEBAQEBAQEBAQEBAQEBAQEBAQEBAQEBAQEBAQF4"
        <-> toy_seal (Bytes.to_bytes "x") key (repeat "000"%byte 32)
            = toy_seal (Bytes.to_bytes "x") key (repeat "001"%byte 32)).
Proof.
  exact (encrypt_secret_same_text
           (sample_world sample_key_doc created)
           (JStr "BwcHBwcHBwcHBwcHBwcHBwcHBwcHBwcHBwcHBwcHBwc=") "x"
           initial_state {| trace := []; draws := 1 |}
           "AAAAAAAAAAAAAAAAAAAAAAAAAAAAAAAAAAAAAAAAAAB4"
           "AQEBAQEBAQEBAQEBAQEBAQEBAQEBAQEBAQEBAQEBAQF4"
           {| trace := []; draws := 1 |} {| trace := []; draws := 2 |}
           eq_refl eq_refl).
Defined.

(** ** [set_secret] *)

(** The shapes a call of [set_secret] can take. *)
Lemma set_secret_cases w repo token name value st :
  match set_secret w repo token name value st with
  | (Ok b, st') =>
      exists body r,
        http_put w (trace st ++ [Get (public_key_url repo) (auth_headers token)])
                 (secret_url repo name) (auth_headers token) body = inr r
        /\ b = is_success r
        /\ trace st' =
           trace st ++
             [Get (public_key_url repo) (auth_headers token);
              Put (secret_url repo name) (auth_headers token) body;
              Print (if b then set_line name else failed_line name r)]
        /\ draws st' = S (draws st)
  | (Raise e, st') =>
      trace st' = trace st ++ [Get (public_key_url repo) (auth_headers token)]
      \/ exists body,
          http_put w (trace st ++ [Get (public_key_url repo) (auth_headers token)])
                   (secret_url repo name) (auth_headers token) body = inl e
          /\ trace st' =
             trace st ++
               [Get (public_key_url repo) (auth_headers token);
                Put (secret_url repo name) (auth_headers token) body]
  end.
Proof.
  destruct (set_secret w repo token name value st) as [[b|e] st'] eqn:Hset.
  - apply set_secret_ok_inv in Hset as (key & key_id & r & _ & Hput & -> & Htr & Hd).
    eexists _, r. split; [exact Hput|]. split; [reflexivity|].
    split; [|exact Hd]. rewrite Htr. now destruct (is_success r).
  - rewrite set_secret_built in Hset.
    pose proof (built_request_trace w repo token value st) as Htr.
    destruct (built_request w repo token value st) as [[body|e1] st1];
      cbn [snd] in Htr.
    + unfold requests_put in Hset. rewrite Htr in Hset.
      destruct (http_put w _ _ _ body) as [e2|r] eqn:Hput.
      * injection Hset as <- <-. right. exists body.
        split; [exact Hput|]. cbn. rewrite Htr, <- app_assoc. reflexivity.
      * destruct (is_success r); discriminate.
    + injection Hset as <- <-. left. exact Htr.
Qed.

(** X4.  A call of [set_secret] always logs the key fetch first, and
    then one of three things happens.  It returns, after one submit
    that the server answered and one printed line, [True] with the
    success line if the answer was 201 or 204 and [False] with the
    failure line otherwise.  Or it raises before any submit, having
    printed nothing.  Or it raises the exception of the submit itself,
    having printed nothing.  So a line is printed only for a submit
    that was answered, and never by a call that raises. *)
Theorem set_secret_outcomes w repo token name value st :
  exists evs,
    trace (snd (set_secret w repo token name value st)) =
      trace st ++ Get (public_key_url repo) (auth_headers token) :: evs
    /\ match fst (set_secret w repo token name value st) with
       | Ok b =>
           exists body r,
             http_put w (trace st ++ [Get (public_key_url repo) (auth_headers token)])
                      (secret_url repo name) (auth_headers token) body = inr r
             /\ b = is_success r
             /\ evs = [Put (secret_url repo name) (auth_headers token) body;
                       Print (if b then set_line name else failed_line name r)]
       | Raise e =>
           evs = []
           \/ exists body,
               http_put w (trace st ++ [Get (public_key_url repo) (auth_headers token)])
                        (secret_url repo name) (auth_headers token) body = inl e
               /\ evs = [Put (secret_url repo name) (auth_headers token) body]
       end.
Proof.
  pose proof (set_secret_cases w repo token name value st) as H.
  destruct (set_secret w repo token name value st) as [[b|e] st']; cbn [fst snd].
  - destruct H as (body & r & Hput & Hb & Htr & _).
    eexists. split; [exact Htr|]. exists body, r. auto.
  - destruct H as [Htr | (body & Hput & Htr)].
    + exists []. split; [exact Htr|]. now left.
    + eexists. split; [exact Htr|]. right. exists body. auto.
Qed.

(** X5.  Whether [set_secret] submits is decided by the key document
    and by the value: when the key fetch is answered with a document
    that holds a usable key and a key identifier and the value has no
    lone surrogate, the call makes exactly one PUT; when the key fetch
    is not so answered, or the value has a lone surrogate (line 18
    then raises [UnicodeEncodeError]), the call makes none. *)
Theorem submit_iff_key_document w repo token name value st :
  ((exists key key_id, key_fetch_answers w (trace st) repo token key key_id) ->
   Bytes.encodable value = true ->
   count_puts (trace (snd (set_secret w repo token name value st))) =
   S (count_puts (trace st)))
  /\ ((forall key key_id, ~ key_fetch_answers w (trace st) repo token key key_id)
      \/ Bytes.encodable value = false ->
      count_puts (trace (snd (set_secret w repo token name value st))) =
      count_puts (trace st)).
Proof.
  rewrite set_secret_built. split.
  - intros (key & key_id & Hfetch) Hvalue.
    rewrite (built_request_ok _ _ _ value _ _ _ Hfetch Hvalue).
    unfold requests_put. cbn [trace].
    destruct (http_put w _ _ _ _) as [e|r]; [|destruct (is_success r)];
      cbn [snd log trace]; rewrite <- ?app_assoc, !count_puts_app; cbn; lia.
  - intros Hno.
    pose proof (built_request_trace w repo token value st) as Htr.
    destruct (built_request w repo token value st) as [[body|e] st1] eqn:Hreq;
      cbn [snd] in *.
    + apply built_request_inv in Hreq as (key & key_id & Hfetch & Hvalue & _).
      destruct Hno as [Hno|Hno]; [now destruct (Hno key key_id)|congruence].
    + rewrite Htr, count_puts_app. cbn. lia.
Qed.

(** A usable key document and the value ["x"]: one PUT.  A document
    without its key: none.  A usable key document and the value
    ['\udcff']: none. *)
Lemma submit_iff_key_document_witness :
  count_puts (trace (snd (set_secret (sample_world sample_key_doc created)
                            "owner/repo" "t0ken" "A" "x" initial_state))) = 1
  /\ count_puts (trace (snd (set_secret (sample_world key_doc_without_key created)
                               "owner/repo" "t0ken" "A" "x" initial_state))) = 0
  /\ count_puts (trace (snd (set_secret (sample_world sample_key_doc created)
                               "owner/repo" "t0ken" "A" lone_surrogate
                               initial_state))) = 0.
Proof.
  split; [|split].
  - apply (proj1 (submit_iff_key_document
                    (sample_world sample_key_doc created)
                    "owner/repo" "t0ken" "A" "x" initial_state)).
    + apply (sample_key_doc_ok created).
    + reflexivity.
  - apply (proj2 (submit_iff_key_document
                    (sample_world key_doc_without_key created)
                    "owner/repo" "t0ken" "A" "x" initial_state)).
    left. intros key key_id (r & fields & pk & Hget & Hjson & Hkey & _).
    injection Hget as <-. injection Hjson as <-. discriminate Hkey.
  - apply (proj2 (submit_iff_key_document
                    (sample_world sample_key_doc created)
                    "owner/repo" "t0ken" "A" lone_surrogate initial_state)).
    right. reflexivity.
Defined.

(** X6.  Nothing in [set_secret] catches an exception.  A failure of
    the key fetch itself, a body that is not JSON, a JSON document
    that is not an object, and a failure of the submit itself each end
    the call with that exception, after the requests made so far and
    without any printed line. *)
Theorem set_secret_propagates w repo token name value st :
  let fetch := Get (public_key_url repo) (auth_headers token) in
  (forall e,
      http_get w (trace st) (public_key_url repo) (auth_headers token) = inl e ->
      set_secret w repo token name value st = (Raise e, log fetch st))
  /\ (forall r,
         http_get w (trace st) (public_key_url repo) (auth_headers token) = inr r ->
         json_body r = None ->
         set_secret w repo token name value st =
         (Raise JSONDecodeError, log fetch st))
  /\ (forall r document,
         http_get w (trace st) (public_key_url repo) (auth_headers token) = inr r ->
         json_body r = Some document ->
         (forall fields, document <> JObj fields) ->
         set_secret w repo token name value st = (Raise TypeError, log fetch st))
  /\ (forall body st1 e,
         built_request w repo token value st = (Ok body, st1) ->
         http_put w (trace st1) (secret_url repo name) (auth_headers token) body
         = inl e ->
         set_secret w repo token name value st =
         (Raise e, log (Put (secret_url repo name) (auth_headers token) body) st1)).
Proof.
  intros fetch. repeat split.
  - intros e Hget. unfold set_secret. cbv zeta. unfold bind at 1.
    unfold requests_get. now rewrite Hget.
  - intros r Hget Hjson. unfold set_secret. cbv zeta. unfold bind at 1.
    unfold requests_get. rewrite Hget. unfold bind at 1.
    unfold response_json. now rewrite Hjson.
  - intros r document Hget Hjson Hobj. unfold set_secret. cbv zeta.
    unfold bind at 1. unfold requests_get. rewrite Hget. unfold bind at 1.
    unfold response_json. rewrite Hjson. unfold ret at 1. unfold bind at 1.
    destruct document; try reflexivity. now destruct (Hobj fields).
  - intros body st1 e Hreq Hput. rewrite set_secret_built, Hreq.
    unfold requests_put. now rewrite Hput.
Qed.

(** A server whose key resource answers with a JSON list. *)
Lemma set_secret_propagates_witness :
  set_secret (sample_world (JArr []) created) "owner/repo" "t0ken" "A" "x"
             initial_state
  = (Raise TypeError,
     {| trace := [Get (public_key_url "owner/repo") (auth_headers "t0ken")];
        draws := 0 |}).
Proof.
  apply (proj1 (proj2 (proj2 (set_secret_propagates
                                (sample_world (JArr []) created)
                                "owner/repo" "t0ken" "A" "x" initial_state)))
           {| status_code := 200; text := ""; json_body := Some (JArr []) |}
           (JArr []) eq_refl eq_refl).
  discriminate.
Defined.

(** ** The loop and the summary *)

Lemma printed_app t1 t2 : printed (t1 ++ t2) = printed t1 ++ printed t2.
Proof.
  induction t1 as [|e t1 IH]; [reflexivity|].
  destruct e; cbn; now rewrite IH.
Qed.

Lemma attempts_truthy (value : option string) :
  attempts value = if truthy value then 1 else 0.
Proof. reflexivity. Qed.

(** One completed turn of the loop, in full. *)
Lemma loop_body_ok_full w repo token name value count st n st' :
  loop_body w repo token (name, value) count st = (Ok n, st') ->
  exists evs line,
    trace st' = trace st ++ evs
    /\ printed evs = [line]
    /\ reports (name, value) line
    /\ draws st' = draws st + attempts value
    /\ count <= n <= count + attempts value.
Proof.
  destruct (truthy_cases value) as [[Ht Hv] | [Ht (c & s & ->)]].
  - rewrite (loop_body_skip _ _ _ _ _ _ _ Hv). intros [= <- <-].
    exists [Print (skip_line name)], (skip_line name).
    unfold reports, attempts. cbn [fst snd]. rewrite Ht. cbn.
    repeat split; auto; lia.
  - rewrite loop_body_attempt.
    destruct (set_secret w repo token name (String c s) st) as [[b|e] st2] eqn:Hset;
      [|discriminate].
    apply set_secret_ok_inv in Hset as (key & key_id & r & _ & _ & -> & Htr & Hd).
    intros H.
    assert (Hn : count <= n <= count + 1 /\ st' = st2)
      by (destruct (is_success r); injection H as <- <-; split; auto; lia).
    destruct Hn as [Hn ->].
    eexists _, _. split; [exact Htr|]. cbn [printed].
    split; [reflexivity|]. unfold reports, attempts. cbn [fst snd truthy].
    split; [|split; [lia|exact Hn]].
    destruct (is_success r); [left|right; exists r]; reflexivity.
Qed.

(** A completed loop, in full. *)
Lemma for_items_ok_full w repo token items count st n st' :
  for_items w repo token items count st = (Ok n, st') ->
  exists evs,
    trace st' = trace st ++ evs
    /\ Forall2 reports items (printed evs)
    /\ draws st' = draws st + attempted items
    /\ count <= n <= count + attempted items.
Proof.
  revert count st. induction items as [|[name value] rest IH]; intros count st.
  - intros [= <- <-]. exists []. cbn. rewrite app_nil_r.
    repeat split; auto; try lia; constructor.
  - rewrite for_items_cons.
    destruct (loop_body w repo token (name, value) count st) as [[m|e] st1] eqn:Hbody;
      [|discriminate].
    apply loop_body_ok_full in Hbody as (evs1 & line & Htr1 & Hp1 & Hrep & Hd1 & Hm).
    intros Hrest. apply IH in Hrest as (evs2 & Htr2 & Hrep2 & Hd2 & Hn).
    exists (evs1 ++ evs2). rewrite attempted_cons, printed_app, Hp1.
    rewrite Htr2, Htr1, <- app_assoc. split; [reflexivity|].
    split; [constructor; assumption|]. lia.
Qed.

(** *** Print calls and output lines *)

Lemma append_cons c (s t : string) : String c s +:+ t = String c (s +:+ t).
Proof. reflexivity. Qed.

Lemma append_nil_r (s : string) : s +:+ "" = s.
Proof.
  induction s as [|c s IH]; [reflexivity|]. now rewrite append_cons, IH.
Qed.

Lemma append_snoc (cur : string) c (s : string) :
  (cur +:+ String c "") +:+ s = cur +:+ String c s.
Proof.
  induction cur as [|a cur IH]; [reflexivity|]. now rewrite !append_cons, IH.
Qed.

Lemma append_assoc (a b c : string) : (a +:+ b) +:+ c = a +:+ (b +:+ c).
Proof.
  induction a as [|x a IH]; [reflexivity|]. now rewrite !append_cons, IH.
Qed.

(** A call of [print] ends its last line: what follows starts a new
    one. *)
Lemma lines_from_print cur text rest :
  lines_from cur (text +:+ String "010" rest) =
  lines_from cur (text +:+ String "010" "") ++ lines_from "" rest.
Proof.
  revert cur. induction text as [|c text IH]; intros cur.
  - reflexivity.
  - rewrite !append_cons. cbn [lines_from].
    destruct (Ascii.eqb c "010"); [cbn [app]; f_equal|]; apply IH.
Qed.

(** The output lines are those of the print calls, one call after the
    other. *)
Lemma lines_stdout evs :
  lines (stdout evs) = concat (map print_lines (printed evs)).
Proof.
  induction evs as [|[url hdrs|url hdrs body|text] evs IH];
    cbn [stdout printed map concat]; try assumption; [reflexivity|].
  unfold lines at 1. rewrite lines_from_print. fold (lines (stdout evs)).
  now rewrite IH.
Qed.

Lemma lines_from_length cur text :
  List.length (lines_from cur (text +:+ String "010" "")) = S (newlines text).
Proof.
  revert cur. induction text as [|c text IH]; intros cur.
  - reflexivity.
  - rewrite append_cons. cbn [lines_from newlines].
    destruct (Ascii.eqb c "010"); cbn [List.length]; now rewrite IH.
Qed.

Lemma lines_from_plain cur text rest :
  newlines text = 0 ->
  lines_from cur (text +:+ rest) = lines_from (cur +:+ text) rest.
Proof.
  revert cur. induction text as [|c text IH]; intros cur.
  - now rewrite append_nil_r.
  - rewrite append_cons. cbn [lines_from newlines].
    destruct (Ascii.eqb c "010"); [discriminate|]. intros Hplain.
    now rewrite IH, append_snoc.
Qed.

Lemma print_lines_plain text : newlines text = 0 -> print_lines text = [text].
Proof.
  intros Hplain. unfold print_lines, lines.
  now rewrite (lines_from_plain _ _ _ Hplain).
Qed.

Lemma newlines_in_cons text texts :
  newlines_in (text :: texts) = newlines text + newlines_in texts.
Proof. reflexivity. Qed.

Lemma print_lines_total texts :
  List.length (concat (map print_lines texts)) =
  List.length texts + newlines_in texts.
Proof.
  induction texts as [|text texts IH]; [reflexivity|].
  rewrite newlines_in_cons. cbn [map concat List.length].
  rewrite List.length_app, IH.
  unfold print_lines, lines. rewrite lines_from_length. lia.
Qed.

Lemma print_lines_all_plain texts :
  newlines_in texts = 0 -> concat (map print_lines texts) = texts.
Proof.
  induction texts as [|text texts IH]; [reflexivity|].
  rewrite newlines_in_cons. cbn [map concat]. intros Hplain.
  rewrite print_lines_plain, IH by lia. reflexivity.
Qed.

(** X7.  The loop reports on every secret, in the order of the
    dictionary: when it completes, it has called [print] once per
    secret, the i-th call with the skip line of the i-th name when its
    value is unset or empty, and with its success line or a failure
    line of its name otherwise.  The output of the loop has as many
    lines as there are secrets, plus one for every newline character
    inside a printed text (a name or a response body); when there is
    no such newline, the output lines are one per secret, each the
    report on its secret. *)
Theorem one_line_per_secret w repo token items count st n st' :
  for_items w repo token items count st = (Ok n, st') ->
  exists evs,
    trace st' = trace st ++ evs
    /\ Forall2 reports items (printed evs)
    /\ List.length (lines (stdout evs)) =
       List.length items + newlines_in (printed evs)
    /\ (newlines_in (printed evs) = 0 ->
        Forall2 reports items (lines (stdout evs))).
Proof.
  intros Hloop.
  apply for_items_ok_full in Hloop as (evs & Htr & Hrep & _).
  exists evs. split; [exact Htr|]. split; [exact Hrep|].
  rewrite lines_stdout. split.
  - rewrite print_lines_total. f_equal.
    symmetry. eapply Forall2_length. exact Hrep.
  - intros Hplain. now rewrite print_lines_all_plain.
Qed.

Lemma one_line_per_secret_witness :
  exists evs,
    trace (snd (for_items (sample_world sample_key_doc forbidden_but_E)
                  "owner/repo" "t0ken"
                  [("D", Some "d"); ("B", None); ("E", Some "e")] 0 initial_state))
    = [] ++ evs
    /\ lines (stdout evs) =
       ["✗ Failed to set D: 403 Forbidden";
        "⚠ Skipping B: not set in environment";
        "✓ Set secret: E"]
    /\ List.length (lines (stdout evs)) = 3 + newlines_in (printed evs).
Proof.
  destruct (one_line_per_secret
              (sample_world sample_key_doc forbidden_but_E) "owner/repo" "t0ken"
              [("D", Some "d"); ("B", None); ("E", Some "e")] 0 initial_state
              1 _ eq_refl) as (evs & Htr & _ & Hlen & _).
  exists evs. split; [exact Htr|]. split; [|exact Hlen].
  vm_compute in Htr. rewrite <- Htr. reflexivity.
Defined.

(** X8.  Every attempted secret is sealed with a draw of its own: a
    completed loop has used exactly as many draws of randomness as
    there are secrets with a non-empty value, and the success counter
    has grown by at most that number. *)
Theorem one_draw_per_attempt w repo token items count st n st' :
  for_items w repo token items count st = (Ok n, st') ->
  draws st' = draws st + attempted items
  /\ count <= n <= count + attempted items.
Proof.
  intros Hloop.
  apply for_items_ok_full in Hloop as (evs & _ & _ & Hd & Hn). auto.
Qed.

Lemma one_draw_per_attempt_witness :
  draws (snd (for_items (sample_world sample_key_doc forbidden_but_E)
                "owner/repo" "t0ken"
                [("D", Some "d"); ("B", None); ("E", Some "e")] 0 initial_state))
  = 0 + 2.
Proof.
  apply (proj1 (one_draw_per_attempt
                  (sample_world sample_key_doc forbidden_but_E)
                  "owner/repo" "t0ken"
                  [("D", Some "d"); ("B", None); ("E", Some "e")] 0 initial_state
                  1 _ eq_refl)).
Defined.

(** X9.  An exception in the turn of one secret ends the whole run:
    when the loop has completed the secrets before it and its own turn
    raises, [publish_all] raises the same exception in the same state,
    whatever secrets follow; they are not processed and no summary is
    printed. *)
Theorem exception_ends_run w repo token pre item rest st0 n st e st' :
  for_items w repo token pre 0 st0 = (Ok n, st) ->
  loop_body w repo token item n st = (Raise e, st') ->
  publish_all w repo token (pre ++ item :: rest) st0 = (Raise e, st').
Proof.
  intros Hpre Hbody.
  now rewrite publish_all_unfold, for_items_app, Hpre, for_items_cons, Hbody.
Qed.

(** The submit of [B] is refused by the network; [C] is never tried. *)
Lemma exception_ends_run_witness :
  publish_all
    {| http_get := http_get (sample_world sample_key_doc created);
       http_put := fun _ _ _ _ => inl RequestException;
       randombytes := randombytes (sample_world sample_key_doc created);
       crypto_box_seal := toy_seal;
       dotenv := fun environ => inr environ |}
    "owner/repo" "t0ken"
    ([("A", None)] ++ ("B", Some "b") :: [("C", Some "c")]) initial_state
  = (Raise RequestException,
     {| trace :=
          [Print "⚠ Skipping A: not set in environment";
           Get (public_key_url "owner/repo") (auth_headers "t0ken");
           Put (secret_url "owner/repo" "B") (auth_headers "t0ken")
               (JObj [("encrypted_value",
                       JStr "AAAAAAAAAAAAAAAAAAAAAAAAAAAAAAAAAAAAAAAAAABi");
                      ("key_id", JStr "568250167242549743")])];
        draws := 1 |}).
Proof.
  apply (exception_ends_run _ "owner/repo" "t0ken" [("A", None)]
           ("B", Some "b") [("C", Some "c")] initial_state 0
           {| trace := [Print "⚠ Skipping A: not set in environment"];
              draws := 0 |}).
  - reflexivity.
  - vm_compute. reflexivity.
Defined.

Lemma for_items_all_skipped w repo token items count st :
  Forall (fun item => snd item = None \/ snd item = Some "") items ->
  for_items w repo token items count st =
  (Ok count,
   {| trace := trace st ++ map (fun item => Print (skip_line (fst item))) items;
      draws := draws st |}).
Proof.
  intros Hall. revert st.
  induction Hall as [|[name value] rest Hv _ IH]; intros st.
  - cbn. rewrite app_nil_r. now destruct st.
  - rewrite for_items_cons, (loop_body_skip _ _ _ _ _ _ _ Hv), IH.
    cbn. now rewrite <- app_assoc.
Qed.

(** X10.  When no secret of the dictionary has a value, the run needs
    no server: in any world it returns, having printed the skip line
    of every name in order and the summary [Set 0/total secrets], and
    having made no request and used no randomness. *)
Theorem nothing_to_publish w repo token items st :
  Forall (fun item => snd item = None \/ snd item = Some "") items ->
  publish_all w repo token items st =
  (Ok tt,
   {| trace :=
        trace st ++ map (fun item => Print (skip_line (fst item))) items
          ++ [Print (String "010"
                       ("Set 0/" +:+ pretty (List.length items) +:+ " secrets"))];
      draws := draws st |}).
Proof.
  intros Hall.
  rewrite publish_all_unfold, (for_items_all_skipped _ _ _ _ _ _ Hall).
  unfold log. cbn. now rewrite <- app_assoc.
Qed.

Lemma nothing_to_publish_witness :
  publish_all (sample_world key_doc_without_key forbidden_but_E)
              "owner/repo" "t0ken" [("A", None); ("B", Some "")] initial_state
  = (Ok tt,
     {| trace := [Print "⚠ Skipping A: not set in environment";
                  Print "⚠ Skipping B: not set in environment";
                  Print (String "010" "Set 0/2 secrets")];
        draws := 0 |}).
Proof.
  apply (nothing_to_publish (sample_world key_doc_without_key forbidden_but_E)
           "owner/repo" "t0ken" [("A", None); ("B", Some "")] initial_state).
  constructor; [left; reflexivity|].
  constructor; [right; reflexivity|constructor].
Defined.

(** ** [main] *)

(** X11.  A run of [main] that returns has reported on the seven
    configured names, in their order and with the values found in the
    environment that [load_dotenv()] left, and then printed the
    summary [Set n/7 secrets]: the total is seven whatever the
    environment holds, and [n] is at most seven. *)
Theorem main_reports_seven w environ :
  fst (run w environ) = Ok tt ->
  exists env report n,
    dotenv w environ = inr env
    /\ printed (trace (snd (run w environ))) =
       report ++ [String "010" ("Set " +:+ pretty n +:+ "/7 secrets")]
    /\ Forall2 reports
         (map (fun name => (name, getenv env name)) secret_names)
         report
    /\ List.length report = 7
    /\ n <= 7.
Proof.
  unfold run.
  destruct (dotenv w environ) as [e|env] eqn:Hload.
  { unfold main, bind, load_dotenv. rewrite Hload. discriminate. }
  rewrite (main_loaded _ _ _ _ Hload).
  destruct (getenv env "GITHUB_REPO") as [[|c1 r]|];
    try discriminate;
    destruct (getenv env "GITHUB_TOKEN") as [[|c2 t]|];
    try discriminate.
  rewrite publish_all_unfold.
  destruct (for_items w _ _ _ 0 initial_state) as [[n|e] st'] eqn:Hloop;
    [|discriminate].
  intros _. cbn [fst snd log trace].
  apply for_items_ok_full in Hloop as (evs & Htr & Hrep & _ & Hn).
  exists env, (printed evs), n. split; [reflexivity|].
  rewrite Htr, !printed_app. cbn [trace initial_state app printed].
  split; [reflexivity|]. split; [exact Hrep|]. split.
  - erewrite <- Forall2_length by exact Hrep. reflexivity.
  - assert (Hle : attempted
                    (map (fun name => (name, getenv env name)) secret_names) <= 7).
    { unfold attempted. etransitivity; [apply List.filter_length_le|]. reflexivity. }
    lia.
Qed.

Lemma main_reports_seven_witness :
  exists (report : list string) (n : nat),
    printed (trace (snd (run (sample_world sample_key_doc created)
                             (<["GITHUB_REPO" := "owner/repo"]>
                                (<["GITHUB_TOKEN" := "t0ken"]>
                                   (<["SLACK_USER_ID" := "U1"]> ∅)))))) =
      report ++ [String "010" ("Set " +:+ pretty n +:+ "/7 secrets")]
    /\ List.length report = 7.
Proof.
  assert (Hrun : fst (run (sample_world sample_key_doc created)
                          (<["GITHUB_REPO" := "owner/repo"]>
                             (<["GITHUB_TOKEN" := "t0ken"]>
                                (<["SLACK_USER_ID" := "U1"]> ∅)))) = Ok tt)
    by (vm_compute; reflexivity).
  pose proof (main_reports_seven _ _ Hrun)
    as (env & report & n & _ & Hprinted & _ & Hlen & _).
  exists report, n. split; assumption.
Defined.

(** ** Where the requests go *)

Lemma on_target_incl repo token names names' e :
  incl names names' -> on_target repo token names e ->
  on_target repo token names' e.
Proof.
  intros Hincl. destruct e as [url hdrs|url hdrs body|line]; cbn; auto.
  intros [Hh (name & Hin & Hurl)]. split; [exact Hh|].
  exists name. split; [now apply Hincl|exact Hurl].
Qed.

Lemma attempted_names_cons item rest :
  attempted_names (item :: rest) = attempted_names [item] ++ attempted_names rest.
Proof. unfold attempted_names. cbn. now destruct (truthy (snd item)). Qed.

(** One turn of the loop, whatever its outcome. *)
Lemma loop_body_any w repo token name value count st :
  exists evs,
    trace (snd (loop_body w repo token (name, value) count st)) = trace st ++ evs
    /\ Forall (on_target repo token (attempted_names [(name, value)])) evs.
Proof.
  destruct (truthy_cases value) as [[Ht Hv] | [Ht (c & s & ->)]].
  - rewrite (loop_body_skip _ _ _ _ _ _ _ Hv).
    exists [Print (skip_line name)]. split; [reflexivity|].
    apply List.Forall_cons; [exact I|apply List.Forall_nil].
  - rewrite loop_body_attempt.
    pose proof (set_secret_cases w repo token name (String c s) st) as H.
    assert (Hput : forall body,
               on_target repo token [name]
                         (Put (secret_url repo name) (auth_headers token) body)).
    { intros body. split; [reflexivity|]. exists name. split; [now left|reflexivity]. }
    assert (Hget : on_target repo token [name]
                             (Get (public_key_url repo) (auth_headers token)))
      by (split; reflexivity).
    destruct (set_secret w repo token name (String c s) st) as [[b|e] st'].
    + destruct H as (body & r & _ & _ & Htr & _).
      destruct b; (eexists; split; [exact Htr|]);
        repeat (apply List.Forall_cons || apply List.Forall_nil);
        first [exact Hget | apply Hput | exact I].
    + destruct H as [Htr | (body & _ & Htr)];
        (eexists; split; [exact Htr|]);
        repeat (apply List.Forall_cons || apply List.Forall_nil);
        first [exact Hget | apply Hput | exact I].
Qed.

(** X13.  Whatever the outcome of the loop, completed or ended by an
    exception, every request it made went to the key resource of the
    repository or to the resource of a secret that has a non-empty
    value, and carried the headers with the bearer token.  No
    request is made for a name whose value is unset or empty, and
    none to any other address. *)
Theorem requests_on_target w repo token items count st :
  exists evs,
    trace (snd (for_items w repo token items count st)) = trace st ++ evs
    /\ Forall (on_target repo token (attempted_names items)) evs.
Proof.
  revert count st. induction items as [|[name value] rest IH]; intros count st.
  - exists []. cbn. rewrite app_nil_r. split; [reflexivity|constructor].
  - rewrite for_items_cons, attempted_names_cons.
    destruct (loop_body_any w repo token name value count st) as (evs1 & Htr1 & Hon1).
    destruct (loop_body w repo token (name, value) count st) as [[n|e] st1];
      cbn [snd] in Htr1.
    + destruct (IH n st1) as (evs2 & Htr2 & Hon2).
      exists (evs1 ++ evs2). rewrite Htr2, Htr1, <- app_assoc.
      split; [reflexivity|]. apply Forall_app. split.
      * eapply List.Forall_impl; [|exact Hon1].
        intros e. apply on_target_incl, incl_appl, incl_refl.
      * eapply List.Forall_impl; [|exact Hon2].
        intros e. apply on_target_incl, incl_appr, incl_refl.
    + exists evs1. split; [exact Htr1|].
      eapply List.Forall_impl; [|exact Hon1].
      intros e'. apply on_target_incl, incl_appl, incl_refl.
Qed.

(** ** The summary and the lines above it *)

Lemma is_set_line_set name : is_set_line (set_line name) = true.
Proof. destruct name; reflexivity. Qed.

Lemma is_set_line_failed name r : is_set_line (failed_line name r) = false.
Proof. reflexivity. Qed.

Lemma is_set_line_skip name : is_set_line (skip_line name) = false.
Proof. reflexivity. Qed.

Lemma count_set_lines_app l1 l2 :
  count_set_lines (l1 ++ l2) = count_set_lines l1 + count_set_lines l2.
Proof. unfold count_set_lines. now rewrite List.filter_app, List.length_app. Qed.

Lemma loop_body_ok_marks w repo token name value count st n st' :
  loop_body w repo token (name, value) count st = (Ok n, st') ->
  exists evs,
    trace st' = trace st ++ evs
    /\ n = count + count_set_lines (printed evs).
Proof.
  destruct (truthy_cases value) as [[Ht Hv] | [Ht (c & s & ->)]].
  - rewrite (loop_body_skip _ _ _ _ _ _ _ Hv). intros [= <- <-].
    exists [Print (skip_line name)]. split; [reflexivity|].
    unfold count_set_lines. cbn [printed List.filter].
    rewrite is_set_line_skip. cbn. lia.
  - rewrite loop_body_attempt.
    destruct (set_secret w repo token name (String c s) st) as [[b|e] st2] eqn:Hset;
      [|discriminate].
    apply set_secret_ok_inv in Hset as (key & key_id & r & _ & _ & -> & Htr & _).
    intros H.
    destruct (is_success r); injection H as <- <-;
      (eexists; split; [exact Htr|]);
      unfold count_set_lines; cbn [printed List.filter].
    + rewrite is_set_line_set. cbn. lia.
    + rewrite is_set_line_failed. cbn. lia.
Qed.

Lemma prefix_refl (s : string) : String.prefix s s = true.
Proof.
  induction s as [|c s IH]; [reflexivity|].
  cbn. now destruct (ascii_dec c c).
Qed.

Lemma prefix_app_l (a b s : string) :
  String.prefix (a +:+ b) s = true -> String.prefix a s = true.
Proof.
  revert s. induction a as [|c a IH]; intros s; [now destruct s|].
  rewrite append_cons. destruct s as [|d s]; [discriminate|].
  cbn. destruct (ascii_dec c d); [apply IH|discriminate].
Qed.

Lemma prefix_split (p s : string) :
  String.prefix p s = true -> exists t, s = p +:+ t.
Proof.
  revert s. induction p as [|c p IH]; intros s.
  - exists s. reflexivity.
  - destruct s as [|d s]; [discriminate|].
    cbn. destruct (ascii_dec c d) as [<-|]; [|discriminate].
    intros H. apply IH in H as [t ->]. exists t. reflexivity.
Qed.

(** The first line that a call of [print] writes continues the line
    under way. *)
Lemma lines_from_head cur text :
  exists first more,
    lines_from cur (text +:+ String "010" "") = first :: more
    /\ String.prefix cur first = true.
Proof.
  revert cur. induction text as [|c text IH]; intros cur.
  - exists cur, []. split; [reflexivity|apply prefix_refl].
  - rewrite append_cons. cbn [lines_from].
    destruct (Ascii.eqb c "010").
    + eexists _, _. split; [reflexivity|apply prefix_refl].
    + destruct (IH (cur +:+ String c "")) as (first & more & -> & Hp).
      exists first, more. split; [reflexivity|].
      now apply prefix_app_l in Hp.
Qed.

(** A call of [print] with a success line writes a success line. *)
Lemma print_lines_set_line text :
  is_set_line text = true -> 1 <= count_set_lines (print_lines text).
Proof.
  unfold is_set_line. intros H. apply prefix_split in H as [name ->].
  unfold print_lines, lines.
  rewrite append_assoc, lines_from_plain by reflexivity.
  destruct (lines_from_head ("" +:+ "✓ Set secret: ") name)
    as (first & more & -> & Hp).
  unfold count_set_lines. cbn [List.filter]. unfold is_set_line at 1.
  change (String.prefix "✓ Set secret: " first = true) in Hp.
  rewrite Hp. cbn [List.length]. lia.
Qed.

Lemma count_set_lines_cons text texts :
  count_set_lines (text :: texts) =
  (if is_set_line text then 1 else 0) + count_set_lines texts.
Proof. unfold count_set_lines. cbn [List.filter]. now destruct (is_set_line text). Qed.

Lemma count_set_lines_output texts :
  count_set_lines texts <= count_set_lines (concat (map print_lines texts)).
Proof.
  induction texts as [|text texts IH]; [reflexivity|].
  cbn [map concat]. rewrite count_set_lines_app, count_set_lines_cons.
  destruct (is_set_line text) eqn:Hset.
  - apply print_lines_set_line in Hset. lia.
  - lia.
Qed.

(** X14.  The number [n] in the summary is the number of calls of
    [print] made with a success line: when [publish_all] returns, the
    events of the loop are followed by the print of
    [Set n/total secrets].  In the output, [n] is at most the number
    of lines above the summary that begin with the success mark, and
    equal to it when no printed text (a name or a response body)
    holds a newline; a response body with a newline followed by the
    mark adds such a line and leaves [n] as it is. *)
Theorem summary_counts_success_lines w repo token secrets st st' :
  publish_all w repo token secrets st = (Ok tt, st') ->
  exists evs n,
    trace st' =
      trace st ++ evs ++
        [Print (String "010"
                  ("Set " +:+ pretty n +:+ "/"
                     +:+ pretty (List.length secrets) +:+ " secrets"))]
    /\ n = count_set_lines (printed evs)
    /\ n <= count_set_lines (lines (stdout evs))
    /\ (newlines_in (printed evs) = 0 ->
        n = count_set_lines (lines (stdout evs))).
Proof.
  rewrite publish_all_unfold.
  assert (Hloop : forall items count s n s',
             for_items w repo token items count s = (Ok n, s') ->
             exists evs, trace s' = trace s ++ evs
                         /\ n = count + count_set_lines (printed evs)).
  { induction items as [|[name value] rest IH]; intros count s n s'.
    - intros [= <- <-]. exists []. cbn. rewrite app_nil_r. split; auto.
    - rewrite for_items_cons.
      destruct (loop_body w repo token (name, value) count s) as [[m|e] s1] eqn:Hbody;
        [|discriminate].
      apply loop_body_ok_marks in Hbody as (evs1 & Htr1 & ->).
      intros Hrest. apply IH in Hrest as (evs2 & Htr2 & ->).
      exists (evs1 ++ evs2).
      rewrite printed_app, count_set_lines_app, Htr2, Htr1, <- app_assoc.
      split; [reflexivity|lia]. }
  destruct (for_items w repo token secrets 0 st) as [[n|e] st1] eqn:Hfor;
    [|discriminate].
  apply Hloop in Hfor as (evs & Htr & ->).
  intros [= <-]. exists evs, (count_set_lines (printed evs)).
  cbn [log trace]. rewrite Htr, <- app_assoc.
  split; [reflexivity|]. split; [reflexivity|].
  rewrite lines_stdout. split.
  - apply count_set_lines_output.
  - intros Hplain. now rewrite print_lines_all_plain.
Qed.

(** The submit of [D] is refused with a body of two lines, the second
    made to look like a success line: the summary counts 0, the output
    above it has one line with the success mark. *)
Lemma summary_counts_success_lines_witness :
  exists evs n,
    trace (snd (publish_all (sample_world sample_key_doc forbidden_with_mark)
                  "owner/repo" "t0ken" [("D", Some "d")] initial_state))
    = [] ++ evs ++
        [Print (String "010"
                  ("Set " +:+ pretty n +:+ "/" +:+ pretty 1 +:+ " secrets"))]
    /\ n = 0
    /\ count_set_lines (lines (stdout evs)) = 1.
Proof.
  destruct (summary_counts_success_lines
              (sample_world sample_key_doc forbidden_with_mark)
              "owner/repo" "t0ken" [("D", Some "d")]
              initial_state _ eq_refl) as (evs & n & Hevs & Hn & _).
  exists evs, n. split; [exact Hevs|].
  subst n. vm_compute in Hevs.
  match type of Hevs with
  | [?e1; ?e2; ?e3; ?e4] = _ =>
      change ([e1; e2; e3] ++ [e4] = evs ++
                [Print (String "010"
                          ("Set " +:+ pretty (count_set_lines (printed evs)) +:+ "/"
                             +:+ pretty 1 +:+ " secrets"))]) in Hevs
  end.
  apply app_inj_tail in Hevs as [<- _]. split; reflexivity.
Defined.
